(** * The instruction interpretation and dispatch loop of [app.py]

    A shallow embedding of the [/api/chat] handler ([chat_api]) and of the
    three provider helpers it calls ([get_youtube_video_url],
    [get_spotify_track_url], [get_weather]).

    Python values that come out of [json.loads] are modelled by the
    inductive type [json]; Python dictionaries keep their insertion order
    (the handler reads [list(instr.keys())[0]]), so an object is an
    association list.  Text is a [string] of UTF-8 bytes; half of a surrogate
    pair standing alone, which [json.loads] accepts from an escape such as
    [\ud800], is its three bytes ED A0..BF 80..BF.  Everything the
    handler obtains from outside the process (the language model, the wall
    clock, the YouTube, Spotify and weather services, [json.loads] and
    [repr]) is a field of the record [World]; effectful fields are indexed
    by the number of effects performed before them, so two reads of the
    clock in one request may differ.  Exceptions are values of [exn] and
    code that can raise lives in the monad [M]. *)

From Stdlib Require Import String Ascii List ZArith Lia Bool Arith Nnat.
From Stdlib Require Import DecimalString.
From Stdlib Require DecimalNat DecimalPos.
From Stdlib Require Import Floats.SpecFloat.
Import ListNotations.
Local Open Scope list_scope.
Local Open Scope string_scope.
Set Warnings "-register-all".

(** ** Values decoded by [json.loads] *)

Inductive json : Type :=
| JNull
| JBool (b : bool)
| JInt (z : Z)
| JFloat (f : spec_float)
| JStr (s : string)
| JArr (l : list json)
| JObj (o : list (string * json)).

(** ** Exceptions

    Only the classes the handler's [except] clauses tell apart are kept
    distinct.  [RequestsJSONDecodeError] is
    [requests.exceptions.JSONDecodeError], which inherits from both
    [RequestException] and [json.JSONDecodeError].  [UnsupportedMediaType]
    and [BadRequest] are the two HTTP exceptions of [werkzeug] that reading
    [request.json] can raise. *)

Inductive exn : Type :=
| KeyError
| IndexError
| TypeError
| AttributeError
| OverflowError
| JSONDecodeError
| RequestException
| RequestsJSONDecodeError
| IntegrityError
| InterfaceError
| UnboundLocalError
| UnicodeEncodeError
| UnsupportedMediaType
| BadRequest
| OtherError.

Definition isinstance_KeyError (e : exn) : bool :=
  match e with KeyError => true | _ => false end.

Definition isinstance_RequestException (e : exn) : bool :=
  match e with RequestException | RequestsJSONDecodeError => true | _ => false end.

Definition isinstance_JSONDecodeError (e : exn) : bool :=
  match e with JSONDecodeError | RequestsJSONDecodeError => true | _ => false end.

Inductive pyresult (A : Type) : Type :=
| Ok (a : A)
| Raise (e : exn).
Arguments Ok {A} a.
Arguments Raise {A} e.

(** ** The monad of effectful code

    The state is the number of effects performed so far; it survives an
    exception, as the world does. *)

Definition M (A : Type) : Type := nat -> pyresult A * nat.

Definition ret {A} (a : A) : M A := fun t => (Ok a, t).

Definition bind {A B} (m : M A) (k : A -> M B) : M B :=
  fun t => match m t with
           | (Ok a, t') => k a t'
           | (Raise e, t') => (Raise e, t')
           end.

Definition raise {A} (e : exn) : M A := fun t => (Raise e, t).

(** A pure computation that may raise. *)
Definition lift {A} (r : pyresult A) : M A := fun t => (r, t).

(** One call of an effectful field of the world. *)
Definition effect {A} (f : nat -> pyresult A) : M A := fun t => (f t, S t).

(** [try: body / except ...: handler]: [handler e] is [None] when no
    [except] clause matches the class of [e]. *)
Definition try_except {A} (body : M A) (handler : exn -> option (M A)) : M A :=
  fun t => match body t with
           | (Ok a, t') => (Ok a, t')
           | (Raise e, t') => match handler e with
                              | Some h => h t'
                              | None => (Raise e, t')
                              end
           end.

Declare Scope py_scope.
Delimit Scope py_scope with py.
Notation "x <- m ;; k" := (bind m (fun x => k))
  (at level 100, m at next level, right associativity) : py_scope.
Notation "' p <- m ;; k" := (bind m (fun x => match x with p => k end))
  (at level 100, p pattern, m at next level, right associativity) : py_scope.
Local Open Scope py_scope.

Definition pbind {A B} (r : pyresult A) (k : A -> pyresult B) : pyresult B :=
  match r with Ok a => k a | Raise e => Raise e end.

(** ** Python operations on decoded values *)

(** [d.get(k)] on a dictionary: the binding of [k], if any. *)
Fixpoint dict_get (o : list (string * json)) (k : string) : option json :=
  match o with
  | [] => None
  | (k', v) :: o' => if String.eqb k' k then Some v else dict_get o' k
  end.

(** [d[k] = v]: replaces the value in place when [k] is bound, appends the
    binding otherwise. *)
Fixpoint dict_set (o : list (string * json)) (k : string) (v : json)
  : list (string * json) :=
  match o with
  | [] => [(k, v)]
  | (k', v') :: o' =>
      if String.eqb k' k then (k', v) :: o' else (k', v') :: dict_set o' k v
  end.

(** [x.get(k, default)]: only dictionaries have the method. *)
Definition py_get (x : json) (k : string) (default : json) : pyresult json :=
  match x with
  | JObj o => Ok (match dict_get o k with Some v => v | None => default end)
  | _ => Raise AttributeError
  end.

(** [x[k] = v]; the handler only assigns into a dictionary. *)
Definition py_setitem (x : json) (k : string) (v : json) : pyresult json :=
  match x with
  | JObj o => Ok (JObj (dict_set o k v))
  | _ => Raise TypeError
  end.

(** [x[k]] with a text key. *)
Definition getitem (x : json) (k : string) : pyresult json :=
  match x with
  | JObj o => match dict_get o k with Some v => Ok v | None => Raise KeyError end
  | _ => Raise TypeError
  end.

(** The characters (code points) of a text: a byte of the form 10xxxxxx
    continues the character begun before it. *)
Definition is_continuation (c : ascii) : bool :=
  let n := nat_of_ascii c in (128 <=? n)%nat && (n <? 192)%nat.

Fixpoint chars_from (cur : string) (s : string) : list string :=
  match s with
  | EmptyString => [cur]
  | String c s' =>
      if is_continuation c then chars_from (cur ++ String c EmptyString)%string s'
      else cur :: chars_from (String c EmptyString) s'
  end.

Definition chars (s : string) : list string :=
  match s with
  | EmptyString => []
  | String c s' => chars_from (String c EmptyString) s'
  end.

(** [x[0]]. Keys of a decoded dictionary are text, so [0] is never bound. *)
Definition getitem0 (x : json) : pyresult json :=
  match x with
  | JObj _ => Raise KeyError
  | JArr [] => Raise IndexError
  | JArr (v :: _) => Ok v
  | JStr s => match chars s with [] => Raise IndexError | c :: _ => Ok (JStr c) end
  | _ => Raise TypeError
  end.

(** [for item in x]: the sequence iterated over. *)
Definition py_iter (x : json) : pyresult (list json) :=
  match x with
  | JArr l => Ok l
  | JObj o => Ok (map (fun kv => JStr (fst kv)) o)
  | JStr s => Ok (map JStr (chars s))
  | _ => Raise TypeError
  end.

Definition float_is_zero (f : spec_float) : bool :=
  match f with S754_zero _ => true | _ => false end.

(** Truth value of [x] in [if x:]. *)
Definition truthy (x : json) : bool :=
  match x with
  | JNull => false
  | JBool b => b
  | JInt z => negb (Z.eqb z 0)
  | JFloat f => negb (float_is_zero f)
  | JStr s => negb (String.eqb s "")
  | JArr l => match l with [] => false | _ => true end
  | JObj o => match o with [] => false | _ => true end
  end.

(** [x == s] for a text literal [s]: text equals only text. *)
Definition eq_str (x : json) (s : string) : bool :=
  match x with JStr t => String.eqb t s | _ => false end.

(** [sep.join(l)] raises unless every item is text. *)
Fixpoint as_strs (l : list json) : pyresult (list string) :=
  match l with
  | [] => Ok []
  | JStr s :: l' => pbind (as_strs l') (fun r => Ok (s :: r))
  | _ :: _ => Raise TypeError
  end.

Definition join (sep : string) (l : list string) : string := String.concat sep l.

(** ** Text operations of the handler *)

(** The characters for which [str.isspace] holds, in UTF-8. *)
Definition bytes (l : list nat) : string :=
  string_of_list_ascii (map ascii_of_nat l).

Definition whitespace : list string :=
  map bytes
    [ [9]; [10]; [11]; [12]; [13]; [28]; [29]; [30]; [31]; [32];
      [194; 133]; [194; 160]; [225; 154; 128];
      [226; 128; 128]; [226; 128; 129]; [226; 128; 130]; [226; 128; 131];
      [226; 128; 132]; [226; 128; 133]; [226; 128; 134]; [226; 128; 135];
      [226; 128; 136]; [226; 128; 137]; [226; 128; 138];
      [226; 128; 168]; [226; 128; 169]; [226; 128; 175];
      [226; 129; 159]; [227; 128; 128] ].

Definition isspace (c : string) : bool :=
  existsb (String.eqb c) whitespace.

Fixpoint dropwhile {A} (p : A -> bool) (l : list A) : list A :=
  match l with
  | [] => []
  | x :: l' => if p x then dropwhile p l' else l
  end.

(** [s.strip()] *)
Definition strip (s : string) : string :=
  String.concat ""
    (List.rev (dropwhile isspace (List.rev (dropwhile isspace (chars s))))).

(** [s.replace(old, '')]: the occurrences of [old] are removed from left to
    right without overlap; [skip] counts the bytes of the occurrence being
    removed that are still to be dropped. *)
Fixpoint remove_from (old : string) (skip : nat) (s : string) : string :=
  match s with
  | EmptyString => EmptyString
  | String c s' =>
      match skip with
      | S k => remove_from old k s'
      | O => if String.prefix old s
             then remove_from old (String.length old - 1) s'
             else String c (remove_from old 0 s')
      end
  end.

Definition remove_all (old s : string) : string :=
  match old with
  | EmptyString => s
  | _ => remove_from old 0 s
  end.

Definition backticks : string := bytes [96; 96; 96].

(** [response.text.strip().replace('```json', '').replace('```', '')] *)
Definition clean_response_text (text : string) : string :=
  remove_all backticks (remove_all (backticks ++ "json") (strip text)).

(** ** The wall clock and [strftime]

    A reading of [datetime.now()].  Seconds are never printed by the
    handler.  Weekday and month names are those of the C locale, which the
    program never changes. *)

Record datetime : Type := {
  year : nat;
  month : nat;
  day : nat;
  hour : nat;
  minute : nat
}.

(** The decimal numeral of a number, as [str(n)] and [{n}] print it. *)
Definition dec (n : nat) : string := NilZero.string_of_uint (Nat.to_uint n).
Definition decZ (z : Z) : string := NilZero.string_of_int (Z.to_int z).

(** Zero-padded to two digits: [%d], [%m], [%I], [%M]. *)
Definition two_digits (n : nat) : string :=
  if (n <? 10)%nat then "0" ++ dec n else dec n.

Definition is_leap (y : nat) : bool :=
  ((y mod 4 =? 0) && (negb (y mod 100 =? 0) || (y mod 400 =? 0)))%nat.

Definition days_before_year (y : nat) : nat :=
  let p := (y - 1)%nat in (p * 365 + p / 4 - p / 100 + p / 400)%nat.

Definition days_before_month (y m : nat) : nat :=
  (nth m [0; 0; 31; 59; 90; 120; 151; 181; 212; 243; 273; 304; 334] 0
   + (if (2 <? m) && is_leap y then 1 else 0))%nat.

Definition toordinal (d : datetime) : nat :=
  (days_before_year (year d) + days_before_month (year d) (month d) + day d)%nat.

(** [d.weekday()]: Monday is 0. *)
Definition weekday (d : datetime) : nat := ((toordinal d + 6) mod 7)%nat.

Definition day_name (n : nat) : string :=
  nth n ["Monday"; "Tuesday"; "Wednesday"; "Thursday"; "Friday"; "Saturday";
         "Sunday"] "".

Definition month_name (m : nat) : string :=
  nth m [""; "January"; "February"; "March"; "April"; "May"; "June"; "July";
         "August"; "September"; "October"; "November"; "December"] "".

Definition hour12 (d : datetime) : nat :=
  let h := (hour d mod 12)%nat in if (h =? 0)%nat then 12%nat else h.

Definition am_pm (d : datetime) : string :=
  if (hour d <? 12)%nat then "AM" else "PM".

(** [now.strftime("%I:%M %p")] *)
Definition strftime_I_M_p (d : datetime) : string :=
  two_digits (hour12 d) ++ ":" ++ two_digits (minute d) ++ " " ++ am_pm d.

(** [now.strftime("%A, %B %d, %Y")]; [%Y] prints the year as the C library
    does, without padding, which matters only before the year 1000. *)
Definition strftime_A_B_d_Y (d : datetime) : string :=
  day_name (weekday d) ++ ", " ++ month_name (month d) ++ " "
  ++ two_digits (day d) ++ ", " ++ dec (year d).

(** [now.strftime("%Y-%m-%d")] *)
Definition strftime_Y_m_d (d : datetime) : string :=
  dec (year d) ++ "-" ++ two_digits (month d) ++ "-" ++ two_digits (day d).

(** ** The conversations table

    A row is what one [INSERT] binds: [user_id], [user_message] and
    [bot_response].  The schema of [init_db] declares the three columns
    [NOT NULL]. *)

Inductive sql_value : Type :=
| SqlInteger (z : Z)
| SqlReal (f : spec_float)
| SqlText (s : string).

Record Row : Type := {
  row_user_id : Z;
  user_message : sql_value;
  bot_response : sql_value
}.

Definition History : Type := list Row.

(** [s] holds half of a surrogate pair standing alone: the byte ED followed
    by a byte from A0 to BF.  Such a text has no UTF-8 encoding. *)
Fixpoint has_surrogate (s : string) : bool :=
  match s with
  | String c ((String d _) as s') =>
      ((nat_of_ascii c =? 237)%nat
       && (160 <=? nat_of_ascii d)%nat && (nat_of_ascii d <=? 191)%nat)
      || has_surrogate s'
  | _ => false
  end.

(** How [sqlite3] binds a Python value as a parameter of a [NOT NULL]
    column: [None] (and a NaN, which SQLite stores as NULL) violates the
    constraint, an integer must fit in 64 bits, a text must encode to UTF-8,
    lists and dictionaries are not supported. *)
Definition sqlite_bind (v : json) : pyresult sql_value :=
  match v with
  | JNull => Raise IntegrityError
  | JBool b => Ok (SqlInteger (if b then 1 else 0))
  | JInt z =>
      if ((- 2 ^ 63 <=? z) && (z <? 2 ^ 63))%Z then Ok (SqlInteger z)
      else Raise OverflowError
  | JFloat S754_nan => Raise IntegrityError
  | JFloat f => Ok (SqlReal f)
  | JStr s => if has_surrogate s then Raise UnicodeEncodeError else Ok (SqlText s)
  | JArr _ | JObj _ => Raise InterfaceError
  end.

(** [cursor.execute("INSERT INTO conversations ...", (user_id, user_query,
    bot_response_text))] followed by [conn.commit()]. *)
Definition insert_conversation (uid : Z) (user_query : json)
    (bot_response_text : json) (h : History) : pyresult History :=
  pbind (sqlite_bind user_query) (fun m =>
  pbind (sqlite_bind bot_response_text) (fun v =>
    Ok (h ++ [{| row_user_id := uid; user_message := m;
                 bot_response := v |}])%list)).

(** [SELECT user_message, bot_response FROM conversations WHERE user_id = ?
    ORDER BY timestamp ASC] *)
Definition select_conversations (uid : Z) (h : History) : list Row :=
  filter (fun r => Z.eqb (row_user_id r) uid) h.

(** ** The world outside the process *)

(** The [youtube] client: [search().list(q=..., part='id', maxResults=5,
    type='video').execute()] and [videos().list(part='status',
    id=...).execute()]. *)
Record YouTube : Type := {
  search_list : nat -> json -> pyresult json;
  videos_list : nat -> string -> pyresult json
}.

(** The [spotify] client: [search(q=..., type='track', limit=1)]. *)
Record Spotify : Type := {
  search : nat -> string -> pyresult json
}.

Record World : Type := {
  (** [repr(v)] of a value that is not text *)
  repr : json -> string;
  (** [json.loads] *)
  loads : string -> pyresult json;
  (** [datetime.now()] *)
  now : nat -> datetime;
  (** [model.generate_content(full_prompt)] followed by [.text]; the prompt
      is built from the date, the rows of the user and the query.  [None]
      when the model could not be configured. *)
  model : option (nat -> string -> list Row -> string -> pyresult string);
  (** [None] without [YOUTUBE_API_KEY] *)
  youtube : option YouTube;
  (** [None] without [SPOTIPY_CLIENT_ID] and [SPOTIPY_CLIENT_SECRET] *)
  spotify : option Spotify;
  (** [os.getenv("WEATHER_API_KEY")] *)
  WEATHER_API_KEY : option string;
  (** [requests.get(base_url, params=params)], [raise_for_status()] and
      [response.json()], for the city and the key *)
  requests_get_json : nat -> json -> string -> pyresult json
}.

(** [str(v)], as an f-string field prints [v]: text prints as itself, any
    other decoded value as its [repr]. *)
Definition str (w : World) (v : json) : string :=
  match v with JStr s => s | _ => repr w v end.

Definition datetime_now (w : World) : M datetime :=
  effect (fun t => Ok (now w t)).

(** ** Provider helpers *)

(** [[item['id']['videoId'] for item in items]] *)
Fixpoint video_ids_of (items : list json) : pyresult (list json) :=
  match items with
  | [] => Ok []
  | item :: rest =>
      pbind (getitem item "id") (fun i =>
      pbind (getitem i "videoId") (fun v =>
      pbind (video_ids_of rest) (fun r => Ok (v :: r))))
  end.

(** The loop over the video details: the [id] of the first item whose
    [status.embeddable] is true. *)
Fixpoint first_embeddable (items : list json) : pyresult (option json) :=
  match items with
  | [] => Ok None
  | item :: rest =>
      pbind (getitem item "status") (fun st =>
      pbind (getitem st "embeddable") (fun e =>
      if truthy e then pbind (getitem item "id") (fun i => Ok (Some i))
      else first_embeddable rest))
  end.

Definition get_youtube_video_url (w : World) (search_term : json)
  : M (option string * string) :=
  match youtube w with
  | None => ret (None, "YouTube API is not configured.")
  | Some yt =>
      try_except
        (search_response <- effect (fun t => search_list yt t search_term) ;;
         items <- lift (pbind (py_get search_response "items" (JArr [])) py_iter) ;;
         video_ids <- lift (video_ids_of items) ;;
         match video_ids with
         | [] =>
             ret (None, "I couldn't find any YouTube videos for '"
                        ++ str w search_term ++ "'.")
         | _ :: _ =>
             ids <- lift (as_strs video_ids) ;;
             video_details_response <-
               effect (fun t => videos_list yt t (join "," ids)) ;;
             details <- lift (pbind (py_get video_details_response "items" (JArr []))
                                    py_iter) ;;
             found <- lift (first_embeddable details) ;;
             match found with
             | Some embeddable_video_id =>
                 ret (Some ("https://www.youtube.com/embed/"
                            ++ str w embeddable_video_id),
                      "Playing the top result for '" ++ str w search_term
                      ++ "' on YouTube.")
             | None =>
                 ret (None, "Sorry, I found videos for '" ++ str w search_term
                            ++ "', but none of them can be played here.")
             end
         end)
        (fun _ =>
           Some (ret (None, "Sorry, I couldn't find a video for '"
                            ++ str w search_term ++ "' on YouTube.")))
  end.

(** [not results or not results['tracks']['items']] *)
Definition no_tracks (results : json) : pyresult bool :=
  if negb (truthy results) then Ok true
  else pbind (getitem results "tracks") (fun tracks =>
       pbind (getitem tracks "items") (fun items => Ok (negb (truthy items)))).

Definition get_spotify_track_url (w : World) (search_term : json)
  : M (option string * string) :=
  match spotify w with
  | None => ret (None, "Spotify API is not configured.")
  | Some sp =>
      try_except
        (results <- effect (fun t => search sp t ("track:" ++ str w search_term)) ;;
         none <- lift (no_tracks results) ;;
         if none : bool then
           ret (None, "Sorry, I couldn't find the song '" ++ str w search_term
                      ++ "' on Spotify.")
         else
           track <- lift (pbind (getitem results "tracks") (fun tracks =>
                          pbind (getitem tracks "items") getitem0)) ;;
           track_id <- lift (getitem track "id") ;;
           track_name <- lift (getitem track "name") ;;
           let track_url := "https://open.spotify.com/embed/track/" ++ str w track_id in
           ret (Some track_url, "Playing '" ++ str w track_name ++ "' on Spotify."))
        (fun _ =>
           Some (ret (None, "Sorry, I couldn't play '" ++ str w search_term
                            ++ "' on Spotify.")))
  end.

Definition get_weather (w : World) (city : json) : M string :=
  match WEATHER_API_KEY w with
  | None | Some EmptyString => ret "Weather API key is not configured."
  | Some key =>
      try_except
        (data <- effect (fun t => requests_get_json w t city key) ;;
         description <- lift (pbind (getitem data "weather") (fun ws =>
                              pbind (getitem0 ws) (fun w0 =>
                              getitem w0 "description"))) ;;
         temp <- lift (pbind (getitem data "main") (fun m => getitem m "temp")) ;;
         ret ("The weather in " ++ str w city ++ " is currently "
              ++ str w description ++ " with a temperature of " ++ str w temp
              ++ "Â°C."))
        (fun e =>
           if isinstance_RequestException e then
             Some (ret ("Sorry, I couldn't fetch the weather for " ++ str w city ++ "."))
           else if isinstance_KeyError e then
             Some (ret ("Sorry, I couldn't find weather data for " ++ str w city ++ "."))
           else None)
  end.

(** ** The dispatch loop of [chat_api] *)

(** The two lists the loop appends to. *)
Record Acc : Type := {
  final_instructions : list json;
  confirmation_speech : list string
}.

Definition empty_acc : Acc :=
  {| final_instructions := []; confirmation_speech := [] |}.

(** [confirmation_speech.append(s)] *)
Definition say (acc : Acc) (s : string) : Acc :=
  {| final_instructions := final_instructions acc;
     confirmation_speech := (confirmation_speech acc ++ [s])%list |}.

(** [final_instructions.append(i)] *)
Definition push (acc : Acc) (i : json) : Acc :=
  {| final_instructions := (final_instructions acc ++ [i])%list;
     confirmation_speech := confirmation_speech acc |}.

(** [if url: final_instructions.append({"open_url": url})] *)
Definition push_url (acc : Acc) (url : option string) : Acc :=
  match url with
  | Some u => if negb (String.eqb u "") then push acc (JObj [("open_url", JStr u)])
              else acc
  | None => acc
  end.

(** [list(instr.keys())[0]] *)
Definition first_key (instr : json) : pyresult string :=
  match instr with
  | JObj [] => Raise IndexError
  | JObj ((k, _) :: _) => Ok k
  | _ => Raise AttributeError
  end.

(** The body of [for instr in response_json.get("instruction", [])]. *)
Definition loop_body (w : World) (instr : json) (acc : Acc) : M Acc :=
  command <- lift (first_key instr) ;;
  value <- lift (getitem instr command) ;;
  if String.eqb command "get_time" then
    now <- datetime_now w ;;
    let current_time := strftime_I_M_p now in
    ret (say acc ("The current time is " ++ current_time ++ "."))
  else if String.eqb command "get_date" then
    now <- datetime_now w ;;
    if eq_str value "full_date" then
      ret (say acc ("Today is " ++ strftime_A_B_d_Y now ++ "."))
    else if eq_str value "year" then
      ret (say acc ("The current year is " ++ dec (year now) ++ "."))
    else if eq_str value "last_year" then
      ret (say acc ("Last year was " ++ decZ (Z.of_nat (year now) - 1) ++ "."))
    else
      ret (say acc ("The date today is " ++ strftime_Y_m_d now ++ "."))
  else if String.eqb command "get_weather" then
    speech <- get_weather w value ;;
    ret (say acc speech)
  else if String.eqb command "play_youtube_direct" then
    ' (url, speech) <- get_youtube_video_url w value ;;
    ret (say (push_url acc url) speech)
  else if String.eqb command "play_spotify_direct" then
    ' (url, speech) <- get_spotify_track_url w value ;;
    ret (say (push_url acc url) speech)
  else
    ret (push acc instr).

Fixpoint run_loop (w : World) (instrs : list json) (acc : Acc) : M Acc :=
  match instrs with
  | [] => ret acc
  | instr :: rest => acc' <- loop_body w instr acc ;; run_loop w rest acc'
  end.

(** ** The handler of [/api/chat] *)

(** What the handler reads from the session and from the request:
    [session.get('logged_in')], [session.get('user_id')] and
    [request.json], the decoded body.  Reading [request.json] raises
    [UnsupportedMediaType] when the body was not sent as JSON and
    [BadRequest] when it is not valid JSON. *)
Record Request : Type := {
  logged_in : bool;
  user_id : Z;
  request_json : pyresult json
}.

(** [request.json.get('message')] *)
Definition message (req : Request) : pyresult json :=
  pbind (request_json req) (fun body => py_get body "message" JNull).

(** What the client receives: [jsonify(body), status], or, when an
    exception leaves the view function, the error page of Flask: the page
    of the HTTP exception when it is one, the page of status 500
    otherwise. *)
Inductive Response : Type :=
| jsonify (body : json) (code : Z)
| unhandled (e : exn).

Definition status (r : Response) : Z :=
  match r with
  | jsonify _ code => code
  | unhandled UnsupportedMediaType => 415
  | unhandled BadRequest => 400
  | unhandled _ => 500
  end.

Definition conversation (speech : string) : json :=
  JObj [("action", JStr "conversation"); ("speech", JStr speech)].

Definition trouble_understanding : string :=
  "I'm having a little trouble understanding. Could you rephrase that?".

Definition unexpected_error : string :=
  "I'm sorry, an unexpected error occurred. Please try again.".

(** [response_json.get("instruction", [])], as the [for] loop iterates
    over it. *)
Definition instruction_items (response_json : json) : pyresult (list json) :=
  pbind (py_get response_json "instruction" (JArr [])) py_iter.

(** The response assembled after the loop: a fresh dictionary when there is
    something to say, the dictionary of the model with its [instruction]
    entry reassigned otherwise. *)
Definition assemble (response_json : json) (acc : Acc) : pyresult json :=
  match confirmation_speech acc with
  | _ :: _ =>
      Ok (JObj [("action", JStr "instruction_and_conversation");
                ("speech", JStr (join " " (confirmation_speech acc)));
                ("instruction", JArr (final_instructions acc))])
  | [] => py_setitem response_json "instruction" (JArr (final_instructions acc))
  end.

(** From the text of the model to the committed row and the response. *)
Definition process_response (w : World) (uid : Z) (user_query : json)
    (h : History) (text : string) : M (Response * History) :=
  let response_text := clean_response_text text in
  response_json <- lift (loads w response_text) ;;
  action <- lift (py_get response_json "action" JNull) ;;
  if eq_str action "instruction" then
    instrs <- lift (instruction_items response_json) ;;
    acc <- run_loop w instrs empty_acc ;;
    final_response <- lift (assemble response_json acc) ;;
    bot_response_text <-
      lift (py_get final_response "speech" (JStr "Executing instruction.")) ;;
    h' <- lift (insert_conversation uid user_query bot_response_text h) ;;
    ret (jsonify final_response 200, h')
  else
    bot_response_text <- lift (py_get response_json "speech" JNull) ;;
    h' <- lift (insert_conversation uid user_query bot_response_text h) ;;
    ret (jsonify response_json 200, h').

(** The [try] block up to the assignment of [response_text]: the rows of
    the user, the date of the prompt, the call of the model on the prompt,
    in which the query is printed. *)
Definition model_text (w : World)
    (generate : nat -> string -> list Row -> string -> pyresult string)
    (uid : Z) (user_query : json) (h : History) : M string :=
  let history_rows := select_conversations uid h in
  today <- datetime_now w ;;
  let today_str := strftime_A_B_d_Y today in
  effect (fun t => generate t today_str history_rows (str w user_query)).

(** The two [except] clauses, once [response_text] is assigned: nothing was
    committed, the table is as the request found it. *)
Definition except_clauses (h : History) (r : pyresult (Response * History))
  : Response * History :=
  match r with
  | Ok r => r
  | Raise e =>
      if isinstance_JSONDecodeError e then
        (jsonify (conversation trouble_understanding) 500, h)
      else
        (jsonify (conversation unexpected_error) 500, h)
  end.

(** The two [except] clauses before [response_text] is assigned: the first
    one prints [response_text], and the [UnboundLocalError] it then raises
    leaves the view function. *)
Definition except_clauses_unbound (e : exn) : Response :=
  if isinstance_JSONDecodeError e then unhandled UnboundLocalError
  else jsonify (conversation unexpected_error) 500.

(** [chat_api]: the guards, then the [try] block.  The result is the
    response and the table after the request. *)
Definition chat_api (w : World) (req : Request) (h : History) (t : nat)
  : Response * History :=
  if negb (logged_in req) then
    (jsonify (JObj [("error", JStr "Unauthorized")]) 401, h)
  else
    match model w with
    | None => (jsonify (conversation "AI model is not configured.") 500, h)
    | Some generate =>
        match message req with
        | Raise e => (unhandled e, h)
        | Ok user_query =>
            if negb (truthy user_query) then
              (jsonify (JObj [("error", JStr "No message provided")]) 400, h)
            else
              match model_text w generate (user_id req) user_query h t with
              | (Ok text, t') =>
                  except_clauses h
                    (fst (process_response w (user_id req) user_query h text t'))
              | (Raise e, _) => (except_clauses_unbound e, h)
              end
        end
    end.

(** ** Notions used in the statements *)

(** The request passes the guards with the value [m] as its message and
    the model answers [text]. *)
Definition model_answers (w : World) (req : Request) (h : History) (t : nat)
    (m : json) (text : string) : Prop :=
  logged_in req = true /\ message req = Ok m /\ truthy m = true /\
  exists generate,
    model w = Some generate /\
    generate (S t) (strftime_A_B_d_Y (now w t))
             (select_conversations (user_id req) h) (str w m) = Ok text.

(** The same, for a message that is the text [q]. *)
Definition model_replies (w : World) (req : Request) (h : History) (t : nat)
    (q text : string) : Prop :=
  logged_in req = true /\ message req = Ok (JStr q) /\ q <> "" /\
  exists generate,
    model w = Some generate /\
    generate (S t) (strftime_A_B_d_Y (now w t))
             (select_conversations (user_id req) h) q = Ok text.


(** The end of a request that got as far as the [INSERT], for the message
    [m] and the text [b] of the bot: the response [resp] with status 200
    and the row when both can be bound, and what the [except] clauses make
    of the failure when one cannot. *)
Definition insert_and_answer (req : Request) (m : json) (b : json)
    (h : History) (resp : json) : Response * History :=
  except_clauses h
    (pbind (insert_conversation (user_id req) m b h)
       (fun h' => Ok (jsonify resp 200, h'))).

(** What [sqlite3] stores for a value it can bind, spelled out: a text
    without a lone surrogate as itself, an integer of 64 bits as itself, a
    boolean as 1 or 0, a real that is a number as itself. *)
Inductive stored_as : json -> sql_value -> Prop :=
| stored_text s : has_surrogate s = false -> stored_as (JStr s) (SqlText s)
| stored_integer z :
    (- 2 ^ 63 <= z < 2 ^ 63)%Z -> stored_as (JInt z) (SqlInteger z)
| stored_boolean b : stored_as (JBool b) (SqlInteger (if b then 1 else 0))
| stored_real f : f <> S754_nan -> stored_as (JFloat f) (SqlReal f).

(** The values the [INSERT] fails on: [None], a NaN, a list, a dictionary,
    an integer beyond 64 bits, a text with a lone surrogate. *)
Inductive not_stored : json -> Prop :=
| not_stored_none : not_stored JNull
| not_stored_nan : not_stored (JFloat S754_nan)
| not_stored_list l : not_stored (JArr l)
| not_stored_dict o : not_stored (JObj o)
| not_stored_big z : (z < - 2 ^ 63 \/ 2 ^ 63 <= z)%Z -> not_stored (JInt z)
| not_stored_surrogate s : has_surrogate s = true -> not_stored (JStr s).

(** The command names the loop executes on the server. *)
Definition server_side : list string :=
  ["get_time"; "get_date"; "get_weather"; "play_youtube_direct";
   "play_spotify_direct"].

Definition is_server_side (command : string) : bool :=
  existsb (String.eqb command) server_side.

(** [extend acc d]: the lists of [acc] followed by those of [d]. *)
Definition extend (acc d : Acc) : Acc :=
  {| final_instructions := (final_instructions acc ++ final_instructions d)%list;
     confirmation_speech := (confirmation_speech acc ++ confirmation_speech d)%list |}.

(** The same outcome, with the lists of [acc] in front. *)
Definition after (acc : Acc) (r : pyresult Acc * nat) : pyresult Acc * nat :=
  match r with
  | (Ok d, t) => (Ok (extend acc d), t)
  | (Raise e, t) => (Raise e, t)
  end.

(** A url the loop will forward: absent, or a non-empty text. *)
Definition url_ok (url : option string) : Prop :=
  match url with Some u => u <> "" | None => True end.

(** The tail of the instruction branch: insert the row, answer 200. *)
Definition commit (req : Request) (m : json) (h : History)
    (final_response : json) : pyresult (Response * History) :=
  pbind (py_get final_response "speech" (JStr "Executing instruction."))
    (fun bot_response_text =>
       pbind (insert_conversation (user_id req) m bot_response_text h)
         (fun h' => Ok (jsonify final_response 200, h'))).

(** [steps w t instrs outs t']: the commands [instrs] run one after the
    other from the world at [t] to the world at [t'], and [outs] lists, in
    the same order, what each of them adds when run on empty lists. *)
Inductive steps (w : World) : nat -> list json -> list Acc -> nat -> Prop :=
| steps_nil t : steps w t [] [] t
| steps_cons t instr d t1 rest outs t2 :
    loop_body w instr empty_acc t = (Ok d, t1) ->
    steps w t1 rest outs t2 ->
    steps w t (instr :: rest) (d :: outs) t2.

(** ** Example worlds

    Concrete worlds on which the definitions above are run.  [dumps] prints
    the minified JSON text of a value without floats or characters to
    escape; the decoder of an example world knows the texts of
    [documents] and rejects every other text. *)

Definition dq : string := bytes [34].

Fixpoint dumps (v : json) : string :=
  match v with
  | JNull => "null"
  | JBool true => "true"
  | JBool false => "false"
  | JInt z => decZ z
  | JFloat _ => "0.0"
  | JStr s => dq ++ s ++ dq
  | JArr l => "[" ++ String.concat "," (map dumps l) ++ "]"
  | JObj o =>
      "{" ++ String.concat ","
               (map (fun kv => dq ++ fst kv ++ dq ++ ":" ++ dumps (snd kv)) o)
      ++ "}"
  end.

Definition cmd (name : string) (v : json) : json := JObj [(name, v)].

Definition instruction_doc (extra : list (string * json)) (l : list json) : json :=
  JObj ((("action", JStr "instruction") :: extra) ++ [("instruction", JArr l)])%list.

Definition open_wikipedia : json := cmd "open_website" (JStr "wikipedia").

Definition five_commands : list json :=
  [ cmd "get_time" (JStr "current");
    cmd "search_google" (JStr "rocq");
    cmd "set_alarm" (JStr "7am");
    open_wikipedia;
    cmd "get_date" (JStr "year") ].

Definition documents : list json :=
  [ JObj [("action", JStr "instruction")];
    JObj [("action", JStr "chat"); ("speech", JStr "Hello!")];
    JObj [("speech", JStr "Hello!")];
    JObj [];
    JInt 5;
    instruction_doc [] [open_wikipedia];
    instruction_doc [("speech", JStr "On it.")] [open_wikipedia];
    instruction_doc [] [cmd "get_time" (JStr "current")];
    instruction_doc [] [cmd "play_youtube_direct" (JStr "lofi")];
    instruction_doc [] [cmd "get_time" (JStr "current"); JStr "oops"; open_wikipedia];
    instruction_doc [] [cmd "get_time" (JStr "current"); cmd "get_weather" (JStr "paris")];
    instruction_doc [] five_commands ].

Definition example_loads (s : string) : pyresult json :=
  match find (fun v => String.eqb (dumps v) s) documents with
  | Some v => Ok v
  | None => Raise JSONDecodeError
  end.

(** Exact on [None], booleans and integers, which is all the examples
    print. *)
Definition example_repr (v : json) : string :=
  match v with
  | JNull => "None"
  | JBool true => "True"
  | JBool false => "False"
  | JInt z => decZ z
  | _ => "<object>"
  end.

Definition afternoon : datetime :=
  {| year := 2026; month := 11; day := 3; hour := 14; minute := 5 |}.

Definition example_world (reply : string) (yt : option YouTube)
    (weather : pyresult json) : World :=
  {| repr := example_repr;
     loads := example_loads;
     now := fun _ => afternoon;
     model := Some (fun _ _ _ _ => Ok reply);
     youtube := yt;
     spotify := None;
     WEATHER_API_KEY := Some "k";
     requests_get_json := fun _ _ _ => weather |}.

(** A world whose model cannot be reached. *)
Definition offline_world : World :=
  {| repr := example_repr;
     loads := example_loads;
     now := fun _ => afternoon;
     model := Some (fun _ _ _ _ => Raise OtherError);
     youtube := None;
     spotify := None;
     WEATHER_API_KEY := None;
     requests_get_json := fun _ _ _ => Raise RequestException |}.

(** A world whose model client fails on the [json.loads] of what the
    service sent it. *)
Definition garbled_world : World :=
  {| repr := example_repr;
     loads := example_loads;
     now := fun _ => afternoon;
     model := Some (fun _ _ _ _ => Raise JSONDecodeError);
     youtube := None;
     spotify := None;
     WEATHER_API_KEY := None;
     requests_get_json := fun _ _ _ => Raise RequestException |}.

(** A YouTube service that finds nothing. *)
Definition no_videos : YouTube :=
  {| search_list := fun _ _ => Ok (JObj [("items", JArr [])]);
     videos_list := fun _ _ => Ok (JObj []) |}.

(** A weather service whose answer lists no weather condition. *)
Definition no_condition : json :=
  JObj [("weather", JArr []); ("main", JObj [("temp", JInt 21)])].

Definition sunny : json :=
  JObj [("weather", JArr [JObj [("description", JStr "clear sky")]]);
        ("main", JObj [("temp", JInt 21)])].

(** A world whose model answers the empty text, without YouTube or
    Spotify, and with a weather service that answers. *)
Definition quiet_world : World := example_world "" None (Ok sunny).

(** The text of a document, as models wrap it. *)
Definition fenced (doc : json) : string :=
  " " ++ backticks ++ "json" ++ dumps doc ++ backticks.

(** The text of the specification's scenario: prose, then truncated JSON. *)
Definition truncated_reply : string :=
  "Sure! {" ++ dq ++ "action" ++ dq ++ ":" ++ dq ++ "conversation" ++ dq.

Definition example_request : Request :=
  {| logged_in := true; user_id := 1;
     request_json := Ok (JObj [("message", JStr "hello")]) |}.

(** ** Sessions, accounts and the other routes

    The session holds the three keys [login] stores: [logged_in] (always
    [True] when present), [username] and [user_id]; [session.clear()] drops
    them all.  A row of the [users] table is its [id], [username] and
    [password] (the hash); [werkzeug]'s two hashing functions are taken as
    they come, the salt of [generate_password_hash] being drawn from the
    world like any other effect. *)

Record Session : Type := {
  s_logged_in : bool;
  s_username : option string;
  s_user_id : option Z
}.

(** [session.clear()] *)
Definition empty_session : Session :=
  {| s_logged_in := false; s_username := None; s_user_id := None |}.

Record User : Type := {
  rowid : Z;
  username : string;
  password : string
}.

Record Werkzeug : Type := {
  generate_password_hash : nat -> string -> string;
  check_password_hash : string -> string -> bool
}.

Inductive Method : Type := GET | POST.

(** [request.form]: a field that was not posted is absent, and reading it
    ends the request with 400. *)
Record Form : Type := {
  form_username : option string;
  form_password : option string
}.

Inductive Page : Type :=
| render_template (name : string)
| redirect (endpoint : string)
| bad_request.

(** What a view leaves behind: the page, the messages it flashed, the
    session and the [users] table. *)
Record Outcome : Type := {
  page : Page;
  flashed : list string;
  session_after : Session;
  users_after : list User
}.

(** [SELECT ... FROM users WHERE username = ?] followed by [fetchone()] *)
Definition find_user (name : string) (users : list User) : option User :=
  find (fun u => String.eqb (username u) name) users.

(** The [id] an [AUTOINCREMENT] key gives the next row of a table from
    which nothing is ever deleted: one more than the largest so far. *)
Definition next_rowid (users : list User) : Z :=
  (1 + fold_right (fun u m => Z.max (rowid u) m) 0 users)%Z.

Definition login (hash : Werkzeug) (m : Method) (f : Form) (s : Session)
    (users : list User) : Outcome :=
  match m with
  | POST =>
      match form_username f, form_password f with
      | Some name, Some pass =>
          match find_user name users with
          | Some user =>
              if check_password_hash hash (password user) pass then
                {| page := redirect "chatbot"; flashed := [];
                   session_after :=
                     {| s_logged_in := true;
                        s_username := Some (username user);
                        s_user_id := Some (rowid user) |};
                   users_after := users |}
              else
                {| page := render_template "login.html";
                   flashed := ["Invalid credentials. Please try again."];
                   session_after := s; users_after := users |}
          | None =>
              {| page := render_template "login.html";
                 flashed := ["Invalid credentials. Please try again."];
                 session_after := s; users_after := users |}
          end
      | _, _ =>
          {| page := bad_request; flashed := []; session_after := s;
             users_after := users |}
      end
  | GET =>
      {| page := render_template "login.html"; flashed := [];
         session_after := s; users_after := users |}
  end.

Definition signup (hash : Werkzeug) (t : nat) (m : Method) (f : Form)
    (s : Session) (users : list User) : Outcome :=
  match m with
  | POST =>
      match form_username f, form_password f with
      | Some name, Some pass =>
          match find_user name users with
          | Some _ =>
              {| page := render_template "signup.html";
                 flashed := ["Username already exists."];
                 session_after := s; users_after := users |}
          | None =>
              let hashed_password := generate_password_hash hash t pass in
              {| page := redirect "login";
                 flashed := ["Account created successfully! Please log in."];
                 session_after := s;
                 users_after :=
                   (users ++ [{| rowid := next_rowid users; username := name;
                                 password := hashed_password |}])%list |}
          end
      | _, _ =>
          {| page := bad_request; flashed := []; session_after := s;
             users_after := users |}
      end
  | GET =>
      {| page := render_template "signup.html"; flashed := [];
         session_after := s; users_after := users |}
  end.

Definition logout (s : Session) : Page * Session :=
  (redirect "login", empty_session).

Definition chatbot (s : Session) : Page :=
  if negb (s_logged_in s) then redirect "login"
  else render_template "chatbot.html".

(** The session and the posted body, as [chat_api] reads them.  The
    handler reads [user_id] only after the guard on [logged_in], and
    [login] stores the two together. *)
Definition request_of (s : Session) (body : pyresult json) : Request :=
  {| logged_in := s_logged_in s;
     user_id := match s_user_id s with Some z => z | None => 0%Z end;
     request_json := body |}.

(** The rows [WHERE user_id = ?] selects for the session: none when the
    session holds no [user_id], since nothing equals NULL. *)
Definition session_rows (s : Session) (h : History) : list Row :=
  match s_user_id s with
  | Some z => select_conversations z h
  | None => []
  end.

(** What a [SELECT] reads back from the [user_message] and [bot_response]
    columns, which have TEXT affinity: numbers were stored as their text.  [real_text] is the
    text SQLite gives a real. *)
Definition column_text (real_text : spec_float -> string) (v : sql_value)
  : string :=
  match v with
  | SqlText s => s
  | SqlInteger z => decZ z
  | SqlReal f => real_text f
  end.

(** [{"user": row[0], "bot": row[1]}] *)
Definition history_entry (real_text : spec_float -> string) (r : Row) : json :=
  JObj [("user", JStr (column_text real_text (user_message r)));
        ("bot", JStr (column_text real_text (bot_response r)))].

Definition get_history (real_text : spec_float -> string) (s : Session)
    (h : History) : Response :=
  if negb (s_logged_in s) then
    jsonify (JObj [("error", JStr "Unauthorized")]) 401
  else
    jsonify (JArr (map (history_entry real_text) (session_rows s h))) 200.

(** [DELETE FROM conversations WHERE user_id = ?] *)
Definition delete_conversations (s : Session) (h : History) : History :=
  match s_user_id s with
  | Some z => filter (fun r => negb (Z.eqb (row_user_id r) z)) h
  | None => h
  end.

Definition clear_history (s : Session) (h : History) : Response * History :=
  if negb (s_logged_in s) then
    (jsonify (JObj [("error", JStr "Unauthorized")]) 401, h)
  else
    (jsonify (JObj [("message", JStr "History cleared successfully.")]) 200,
     delete_conversations s h).

(** ** Notions used in the further statements *)

(** [contains pat s]: [pat] occurs in [s]. *)
Fixpoint contains (pat s : string) : bool :=
  String.prefix pat s
  || match s with
     | EmptyString => false
     | String _ s' => contains pat s'
     end.

Definition backtick : ascii := ascii_of_nat 96.

(** The number of backticks [s] begins with. *)
Fixpoint leading_backticks (s : string) : nat :=
  match s with
  | String c s' => if Ascii.eqb c backtick then S (leading_backticks s') else 0
  | EmptyString => 0
  end.

(** No byte of [s] is a backtick. *)
Fixpoint no_backtick (s : string) : bool :=
  match s with
  | EmptyString => true
  | String c s' => negb (Ascii.eqb c backtick) && no_backtick s'
  end.

(** [item['status']['embeddable']], as the loop over the video details
    tests it. *)
Definition embeddable (item : json) : pyresult bool :=
  pbind (getitem item "status") (fun st =>
  pbind (getitem st "embeddable") (fun e => Ok (truthy e))).

(** An item of a search answer whose video id is the text [name]. *)
Definition found_video (item : json) (name : string) : Prop :=
  exists i, getitem item "id" = Ok i /\ getitem i "videoId" = Ok (JStr name).


(** The value [final_response.get("speech", "Executing instruction.")] reads
    from a response dictionary. *)
Definition speech_or_default (o : list (string * json)) : json :=
  match dict_get o "speech" with
  | Some s => s
  | None => JStr "Executing instruction."
  end.

(** Every byte of [s] is a white space character of ASCII. *)
Fixpoint all_space (s : string) : bool :=
  match s with
  | EmptyString => true
  | String c s' => isspace (String c EmptyString) && all_space s'
  end.

(** A YouTube service that finds two videos, the second of which alone
    is embeddable; it answers the details only for the two ids together. *)
Definition video_details (name : string) (can_embed : bool) : json :=
  JObj [("id", JStr name); ("status", JObj [("embeddable", JBool can_embed)])].

Definition two_videos : YouTube :=
  {| search_list := fun _ _ =>
       Ok (JObj [("items", JArr [JObj [("id", JObj [("videoId", JStr "a1")])];
                                 JObj [("id", JObj [("videoId", JStr "b2")])]])]);
     videos_list := fun _ ids =>
       if String.eqb ids "a1,b2" then
         Ok (JObj [("items", JArr [video_details "a1" false;
                                   video_details "b2" true;
                                   JStr "not an item"])])
       else Raise OtherError |}.

(** The same search, but the one video of the details is not embeddable. *)
Definition unplayable_videos : YouTube :=
  {| search_list := search_list two_videos;
     videos_list := fun _ _ =>
       Ok (JObj [("items", JArr [video_details "a1" false])]) |}.

(** A search whose answer has no [items] at all. *)
Definition nothing_listed : YouTube :=
  {| search_list := fun _ _ => Ok (JObj [("kind", JStr "list")]);
     videos_list := fun _ _ => Raise OtherError |}.

(** A world with a Spotify service that answers [results] to every search. *)
Definition music_world (results : pyresult json) : World :=
  {| repr := example_repr;
     loads := example_loads;
     now := fun _ => afternoon;
     model := None;
     youtube := None;
     spotify := Some {| search := fun _ _ => results |};
     WEATHER_API_KEY := None;
     requests_get_json := fun _ _ _ => Raise RequestException |}.

Definition one_track : json :=
  JObj [("tracks",
         JObj [("items",
                JArr [JObj [("id", JStr "4u7")
                            ; ("name", JStr "Stairway to Heaven")];
                      JObj [("id", JStr "zzz"); ("name", JStr "Other")]])])].

(** A session as [login] leaves it for the first account. *)
Definition ann_session : Session :=
  {| s_logged_in := true; s_username := Some "ann"; s_user_id := Some 1%Z |}.

Definition bob_session : Session :=
  {| s_logged_in := true; s_username := Some "bob"; s_user_id := Some 2%Z |}.

(** SQLite's text for a real, for the examples: none of them stores one. *)
Definition example_real_text (f : spec_float) : string := "0.0".

Definition example_history : History :=
  [ {| row_user_id := 1; user_message := SqlText "hi";
       bot_response := SqlText "Hello!" |};
    {| row_user_id := 2; user_message := SqlText "time?";
       bot_response := SqlText "The current time is 02:05 PM." |};
    {| row_user_id := 1; user_message := SqlText "count";
       bot_response := SqlInteger 3 |} ].

(** The session [login] stores for an account. *)
Definition session_of (user : User) : Session :=
  {| s_logged_in := true;
     s_username := Some (username user);
     s_user_id := Some (rowid user) |}.

Definition post (name pass : string) : Form :=
  {| form_username := Some name; form_password := Some pass |}.

(** A world in which whatever the model writes decodes to [v]. *)
Definition world_decoding (v : json) : World :=
  {| repr := example_repr;
     loads := fun _ => Ok v;
     now := fun _ => afternoon;
     model := Some (fun _ _ _ _ => Ok "");
     youtube := None;
     spotify := None;
     WEATHER_API_KEY := None;
     requests_get_json := fun _ _ _ => Raise RequestException |}.


(** Half a surrogate pair, as [json.loads] returns it for [\ud800]. *)
Definition lone_surrogate : string := bytes [237; 160; 128].

(** A world in which the model asks for the video [term], the text of the
    model decodes to that request whatever it is, and YouTube lists
    nothing. *)
Definition video_request (term : string) : json :=
  instruction_doc [] [cmd "play_youtube_direct" (JStr term)].

Definition nothing_found_world (term : string) : World :=
  {| repr := example_repr;
     loads := fun _ => Ok (video_request term);
     now := fun _ => afternoon;
     model := Some (fun _ _ _ _ => Ok "");
     youtube := Some nothing_listed;
     spotify := None;
     WEATHER_API_KEY := None;
     requests_get_json := fun _ _ _ => Raise RequestException |}.

(** An example of hashing: the hash is the salt index and the password. *)
Definition example_hash : Werkzeug :=
  {| generate_password_hash := fun t p => dec t ++ "$" ++ p;
     check_password_hash := fun h p =>
       match index 0 "$" h with
       | Some i => String.eqb (substring (S i) (String.length h) h) p
       | None => false
       end |}.

(** * Properties *)

(** ** The definitions at work *)

Example join_three : join " " ["a"; "b"; "c"] = "a b c".
Proof. reflexivity. Qed.

Example temp_suffix : String.length "Â°C." = 6%nat.
Proof. reflexivity. Qed.

Example clean_fenced :
  clean_response_text (bytes [32; 10; 96; 96; 96] ++ "json{}" ++ bytes [96; 96; 96; 10])
  = "{}".
Proof. reflexivity. Qed.

Example strip_nbsp :
  strip (bytes [194; 160; 97; 194; 160; 98; 32; 226; 128; 137])
  = bytes [97; 194; 160; 98].
Proof. reflexivity. Qed.

Example remove_overlap : remove_all "aa" "aaaba" = "aba".
Proof. reflexivity. Qed.

Example weekday_2026_11_03 :
  day_name (weekday {| year := 2026; month := 11; day := 3; hour := 9; minute := 0 |})
  = "Tuesday".
Proof. reflexivity. Qed.

Example weekday_2000_02_29 :
  weekday {| year := 2000; month := 2; day := 29; hour := 0; minute := 0 |} = 1%nat.
Proof. reflexivity. Qed.

Example weekday_1970_01_01 :
  day_name (weekday {| year := 1970; month := 1; day := 1; hour := 0; minute := 0 |})
  = "Thursday".
Proof. reflexivity. Qed.

Example full_date_example :
  strftime_A_B_d_Y {| year := 2024; month := 3; day := 1; hour := 0; minute := 30 |}
  = "Friday, March 01, 2024".
Proof. reflexivity. Qed.

Example midnight_example :
  strftime_I_M_p {| year := 2024; month := 3; day := 1; hour := 0; minute := 30 |}
  = "12:30 AM".
Proof. reflexivity. Qed.

(** ** Reasoning about runs *)

Ltac run :=
  unfold datetime_now; unfold bind, lift, effect, ret, raise; cbv beta iota zeta.

Lemma eq_str_true (v : json) (s : string) : eq_str v s = true <-> v = JStr s.
Proof.
  destruct v; cbn; try (split; [discriminate | intros [=]]).
  rewrite String.eqb_eq. split; [congruence | intros [=]; assumption].
Qed.

Lemma eq_str_false (v : json) (s : string) : eq_str v s = false <-> v <> JStr s.
Proof.
  rewrite <- eq_str_true. destruct (eq_str v s); split; congruence.
Qed.

Lemma dict_get_head (k : string) (v : json) (rest : list (string * json)) :
  dict_get ((k, v) :: rest) k = Some v.
Proof. cbn. now rewrite String.eqb_refl. Qed.



(** When the guards pass and the model answers, the request is the
    processing of the answer under the two [except] clauses. *)
Lemma model_replies_answers w req h t q text :
  model_replies w req h t q text -> model_answers w req h t (JStr q) text.
Proof.
  intros (Hl & Hm & Hq & generate & Hg & Hr).
  repeat split; try assumption.
  - destruct q; [congruence | reflexivity].
  - now exists generate.
Qed.

Lemma chat_api_answers w req h t m text :
  model_answers w req h t m text ->
  chat_api w req h t
  = except_clauses h
      (fst (process_response w (user_id req) m h text (S (S t)))).
Proof.
  intros (Hl & Hm & Hq & generate & Hg & Hr).
  unfold chat_api. rewrite Hl, Hg, Hm, Hq. cbn [negb].
  unfold model_text. run. now rewrite Hr.
Qed.

Lemma chat_api_replies w req h t q text :
  model_replies w req h t q text ->
  chat_api w req h t
  = except_clauses h
      (fst (process_response w (user_id req) (JStr q) h text (S (S t)))).
Proof. intros Hm. apply chat_api_answers, model_replies_answers, Hm. Qed.

(** The [INSERT], spelled out. *)
Lemma sqlite_bind_stored x v : sqlite_bind x = Ok v <-> stored_as x v.
Proof.
  split.
  - destruct x as [|b|z|f|s|l|o]; unfold sqlite_bind; try discriminate.
    + intros [= <-]. constructor.
    + destruct ((- 2 ^ 63 <=? z) && (z <? 2 ^ 63))%Z eqn:E; [|discriminate].
      intros [= <-]. constructor. lia.
    + destruct f; try discriminate; intros [= <-]; constructor; discriminate.
    + destruct (has_surrogate s) eqn:E; [discriminate|].
      intros [= <-]. now constructor.
  - intros [s Hs|z Hz|b|f Hf]; unfold sqlite_bind.
    + now rewrite Hs.
    + replace ((- 2 ^ 63 <=? z) && (z <? 2 ^ 63))%Z with true; [reflexivity|].
      symmetry. apply andb_true_iff. split; [apply Z.leb_le | apply Z.ltb_lt]; lia.
    + reflexivity.
    + destruct f; congruence.
Qed.

Lemma sqlite_bind_not_stored x : (exists e, sqlite_bind x = Raise e) <-> not_stored x.
Proof.
  split.
  - intros [e He]. destruct x as [|b|z|f|s|l|o]; unfold sqlite_bind in He;
      try discriminate; try constructor.
    + destruct ((- 2 ^ 63 <=? z) && (z <? 2 ^ 63))%Z eqn:E; [discriminate|].
      apply andb_false_iff in E as [E|E]; [apply Z.leb_gt in E | apply Z.ltb_ge in E];
        lia.
    + destruct f; try discriminate. constructor.
    + now destruct (has_surrogate s).
  - intros [| |l|o|z Hz|s Hs]; unfold sqlite_bind; eauto.
    + replace ((- 2 ^ 63 <=? z) && (z <? 2 ^ 63))%Z with false; [eauto|].
      symmetry. apply andb_false_iff.
      destruct Hz; [left; apply Z.leb_gt | right; apply Z.ltb_ge]; lia.
    + rewrite Hs. eauto.
Qed.

Lemma sqlite_bind_raises x e :
  sqlite_bind x = Raise e -> isinstance_JSONDecodeError e = false.
Proof.
  destruct x as [|b|z|f|s|l|o]; unfold sqlite_bind; try discriminate;
    try (intros [= <-]; reflexivity).
  - destruct (_ && _)%bool; [discriminate | intros [= <-]; reflexivity].
  - destruct f; try discriminate; intros [= <-]; reflexivity.
  - destruct (has_surrogate s); [intros [= <-]; reflexivity | discriminate].
Qed.

(** Every value is bound or refused. *)
Lemma stored_or_not x : (exists v, stored_as x v) \/ not_stored x.
Proof.
  destruct (sqlite_bind x) as [v|e] eqn:E.
  - left. exists v. now apply sqlite_bind_stored.
  - right. apply sqlite_bind_not_stored. now exists e.
Qed.

Lemma stored_and_not x v : stored_as x v -> not_stored x -> False.
Proof.
  intros Hs Hn. apply sqlite_bind_stored in Hs.
  apply sqlite_bind_not_stored in Hn as [e He]. congruence.
Qed.

Lemma insert_and_answer_stored req m b h resp um v :
  stored_as m um -> stored_as b v ->
  insert_and_answer req m b h resp
  = (jsonify resp 200,
     (h ++ [{| row_user_id := user_id req; user_message := um;
               bot_response := v |}])%list).
Proof.
  intros Hq Hb. apply sqlite_bind_stored in Hq, Hb.
  unfold insert_and_answer, insert_conversation.
  now rewrite Hq, Hb.
Qed.

Lemma insert_and_answer_not_stored req m b h resp :
  not_stored m \/ not_stored b ->
  insert_and_answer req m b h resp = (jsonify (conversation unexpected_error) 500, h).
Proof.
  unfold insert_and_answer, insert_conversation.
  intros [H|H].
  - apply sqlite_bind_not_stored in H as [e He]. rewrite He. cbn.
    now rewrite (sqlite_bind_raises _ _ He).
  - destruct (sqlite_bind m) as [um|e0] eqn:Em.
    + apply sqlite_bind_not_stored in H as [e He]. rewrite He. cbn.
      now rewrite (sqlite_bind_raises _ _ He).
    + cbn. now rewrite (sqlite_bind_raises _ _ Em).
Qed.

(** ** The accumulators only grow at their ends *)

Lemma extend_empty_r acc : extend acc empty_acc = acc.
Proof. destruct acc. unfold extend. cbn. now rewrite !app_nil_r. Qed.

Lemma extend_empty_l acc : extend empty_acc acc = acc.
Proof. now destruct acc. Qed.

Lemma extend_assoc a b c : extend (extend a b) c = extend a (extend b c).
Proof. unfold extend. cbn. now rewrite !app_assoc. Qed.

Lemma say_extend acc s : say acc s = extend acc (say empty_acc s).
Proof. unfold say, extend. cbn. now rewrite app_nil_r. Qed.

Lemma push_extend acc i : push acc i = extend acc (push empty_acc i).
Proof. unfold push, extend. cbn. now rewrite app_nil_r. Qed.

Lemma push_url_extend acc url : push_url acc url = extend acc (push_url empty_acc url).
Proof.
  unfold push_url. destruct url as [u|]; [destruct (negb (String.eqb u ""))|];
    auto using push_extend; now rewrite extend_empty_r.
Qed.

Lemma say_push_url_extend acc url s :
  say (push_url acc url) s = extend acc (say (push_url empty_acc url) s).
Proof.
  rewrite say_extend, push_url_extend, extend_assoc.
  now rewrite <- (say_extend (push_url empty_acc url)).
Qed.

Lemma loop_body_frame w instr acc t :
  loop_body w instr acc t = after acc (loop_body w instr empty_acc t).
Proof.
  unfold loop_body. run.
  destruct (first_key instr) as [command|e]; [|reflexivity].
  destruct (getitem instr command) as [value|e]; [|reflexivity].
  repeat match goal with
         | |- context [if ?b then _ else _] => destruct b
         end; cbn [after];
    try solve [now rewrite say_extend | now rewrite push_extend].
  - destruct (get_weather w value t) as [[s|e] t']; cbn; [|reflexivity].
    now rewrite say_extend.
  - destruct (get_youtube_video_url w value t) as [[[url s]|e] t']; cbn; [|reflexivity].
    now rewrite say_push_url_extend.
  - destruct (get_spotify_track_url w value t) as [[[url s]|e] t']; cbn; [|reflexivity].
    now rewrite say_push_url_extend.
Qed.

Lemma run_loop_frame w instrs : forall acc t,
  run_loop w instrs acc t = after acc (run_loop w instrs empty_acc t).
Proof.
  induction instrs as [|instr rest IH]; intros acc t; cbn [run_loop].
  - unfold ret. cbn. now rewrite extend_empty_r.
  - unfold bind. rewrite loop_body_frame.
    destruct (loop_body w instr empty_acc t) as [[d|e] t']; cbn [after]; [|reflexivity].
    rewrite (IH (extend acc d)), (IH d).
    destruct (run_loop w rest empty_acc t') as [[d'|e] t'']; cbn [after]; [|reflexivity].
    now rewrite extend_assoc.
Qed.

Lemma run_loop_app w l1 : forall l2 acc t,
  run_loop w (l1 ++ l2)%list acc t
  = bind (run_loop w l1 acc) (run_loop w l2) t.
Proof.
  induction l1 as [|instr l1 IH]; intros l2 acc t; cbn [run_loop app].
  - reflexivity.
  - unfold bind at 1 2 3. destruct (loop_body w instr acc t) as [[a|e] t']; [|reflexivity].
    rewrite IH. reflexivity.
Qed.

(** ** The video and music helpers catch everything *)

Lemma push_url_ok acc url :
  url_ok url ->
  push_url acc url
  = match url with
    | Some u => push acc (JObj [("open_url", JStr u)])
    | None => acc
    end.
Proof.
  destruct url as [u|]; cbn; [|reflexivity].
  intros Hu. apply String.eqb_neq in Hu. now rewrite Hu.
Qed.

Ltac split_matches :=
  repeat (match goal with
          | |- context [match ?x with _ => _ end] =>
              lazymatch x with
              | context [match _ with _ => _ end] => fail
              | _ => destruct x eqn:?
              end
          end; cbv beta iota).

Lemma get_youtube_video_url_returns w search_term t :
  exists url speech t',
    get_youtube_video_url w search_term t = (Ok (url, speech), t') /\ url_ok url.
Proof.
  unfold get_youtube_video_url, try_except.
  destruct (youtube w) as [yt|]; run.
  - split_matches; eexists _, _, _; (split; [reflexivity|]); cbn; try exact I;
      discriminate.
  - eexists _, _, _. split; [reflexivity | exact I].
Qed.

Lemma get_spotify_track_url_returns w search_term t :
  exists url speech t',
    get_spotify_track_url w search_term t = (Ok (url, speech), t') /\ url_ok url.
Proof.
  unfold get_spotify_track_url, try_except.
  destruct (spotify w) as [sp|]; run.
  - split_matches; eexists _, _, _; (split; [reflexivity|]); cbn; try exact I;
      discriminate.
  - eexists _, _, _. split; [reflexivity | exact I].
Qed.

(** A failure of either helper is a message without a url: whenever the
    [try] block raises, the [except] clause answers. *)
Lemma get_youtube_video_url_failure w yt search_term t e :
  youtube w = Some yt ->
  search_list yt t search_term = Raise e ->
  get_youtube_video_url w search_term t
  = (Ok (None, "Sorry, I couldn't find a video for '" ++ str w search_term
               ++ "' on YouTube."), S t).
Proof.
  intros Hy He. unfold get_youtube_video_url, try_except. rewrite Hy. run.
  now rewrite He.
Qed.

Lemma get_spotify_track_url_failure w sp search_term t e :
  spotify w = Some sp ->
  search sp t ("track:" ++ str w search_term) = Raise e ->
  get_spotify_track_url w search_term t
  = (Ok (None, "Sorry, I couldn't play '" ++ str w search_term
               ++ "' on Spotify."), S t).
Proof.
  intros Hs He. unfold get_spotify_track_url, try_except. rewrite Hs. run.
  now rewrite He.
Qed.

(** ** One command at a time *)

Lemma loop_body_get_time w v rest acc t :
  loop_body w (JObj (("get_time", v) :: rest)) acc t
  = (Ok (say acc ("The current time is " ++ strftime_I_M_p (now w t) ++ ".")), S t).
Proof. reflexivity. Qed.

Lemma loop_body_get_date w v rest acc t :
  loop_body w (JObj (("get_date", v) :: rest)) acc t
  = (Ok (say acc
           (if eq_str v "full_date" then
              "Today is " ++ strftime_A_B_d_Y (now w t) ++ "."
            else if eq_str v "year" then
              "The current year is " ++ dec (year (now w t)) ++ "."
            else if eq_str v "last_year" then
              "Last year was " ++ decZ (Z.of_nat (year (now w t)) - 1) ++ "."
            else "The date today is " ++ strftime_Y_m_d (now w t) ++ ".")),
     S t).
Proof.
  unfold loop_body. run. cbn.
  now destruct (eq_str v "full_date"), (eq_str v "year"), (eq_str v "last_year").
Qed.

Lemma loop_body_play_youtube w q rest acc t :
  loop_body w (JObj (("play_youtube_direct", q) :: rest)) acc t
  = match get_youtube_video_url w q t with
    | (Ok (url, speech), t') => (Ok (say (push_url acc url) speech), t')
    | (Raise e, t') => (Raise e, t')
    end.
Proof. unfold loop_body. run. cbn. now destruct (get_youtube_video_url w q t) as [[[]|]]. Qed.

Lemma loop_body_play_spotify w q rest acc t :
  loop_body w (JObj (("play_spotify_direct", q) :: rest)) acc t
  = match get_spotify_track_url w q t with
    | (Ok (url, speech), t') => (Ok (say (push_url acc url) speech), t')
    | (Raise e, t') => (Raise e, t')
    end.
Proof. unfold loop_body. run. cbn. now destruct (get_spotify_track_url w q t) as [[[]|]]. Qed.

Lemma loop_body_get_weather w city rest acc t :
  loop_body w (JObj (("get_weather", city) :: rest)) acc t
  = match get_weather w city t with
    | (Ok speech, t') => (Ok (say acc speech), t')
    | (Raise e, t') => (Raise e, t')
    end.
Proof. unfold loop_body. run. cbn. now destruct (get_weather w city t) as [[|]]. Qed.

Lemma loop_body_other w k v rest acc t :
  is_server_side k = false ->
  loop_body w (JObj ((k, v) :: rest)) acc t
  = (Ok (push acc (JObj ((k, v) :: rest))), t).
Proof.
  unfold is_server_side, server_side. cbn [existsb]. rewrite !orb_false_iff.
  intros (H1 & H2 & H3 & H4 & H5 & _).
  unfold loop_body. run. cbn [first_key getitem]. rewrite dict_get_head.
  now rewrite H1, H2, H3, H4, H5.
Qed.

(** One command adds at most one confirmation and at most one client
    instruction. *)
Lemma loop_body_adds_at_most_one w instr t d t' :
  loop_body w instr empty_acc t = (Ok d, t') ->
  (length (confirmation_speech d) <= 1 /\ length (final_instructions d) <= 1)%nat.
Proof.
  unfold loop_body. run.
  destruct (first_key instr) as [command|]; [|discriminate].
  destruct (getitem instr command) as [value|]; [|discriminate].
  repeat match goal with
         | |- context [if ?b then _ else _] => destruct b
         end;
    try (intros [= <- <-]; cbn; lia).
  - destruct (get_weather w value t) as [[s|] ?]; intros [= <- <-]; cbn; lia.
  - destruct (get_youtube_video_url w value t) as [[[url s]|] ?]; intros [= <- <-].
    unfold push_url. destruct url as [u|]; [destruct (negb _)|]; cbn; lia.
  - destruct (get_spotify_track_url w value t) as [[[url s]|] ?]; intros [= <- <-].
    unfold push_url. destruct url as [u|]; [destruct (negb _)|]; cbn; lia.
Qed.

(** ** The request, once the answer of the model is decoded *)

Lemma chat_api_instruction w req h t m text o instrs acc t' :
  model_answers w req h t m text ->
  loads w (clean_response_text text) = Ok (JObj o) ->
  dict_get o "action" = Some (JStr "instruction") ->
  instruction_items (JObj o) = Ok instrs ->
  run_loop w instrs empty_acc (S (S t)) = (Ok acc, t') ->
  chat_api w req h t
  = except_clauses h (pbind (assemble (JObj o) acc) (commit req m h)).
Proof.
  intros Hm Hl Ha Hi Hr. rewrite (chat_api_answers _ _ _ _ _ _ Hm). f_equal.
  unfold process_response. run. rewrite Hl. cbn [py_get]. rewrite Ha.
  cbn [eq_str]. rewrite String.eqb_refl, Hi, Hr. unfold commit, pbind.
  destruct (assemble (JObj o) acc) as [fr|]; [|reflexivity].
  destruct (py_get fr _ _) as [b|]; [|reflexivity].
  now destruct (insert_conversation _ _ _ _).
Qed.


Lemma chat_api_confirmations w req h t m text o instrs acc t' :
  model_answers w req h t m text ->
  loads w (clean_response_text text) = Ok (JObj o) ->
  dict_get o "action" = Some (JStr "instruction") ->
  instruction_items (JObj o) = Ok instrs ->
  run_loop w instrs empty_acc (S (S t)) = (Ok acc, t') ->
  confirmation_speech acc <> [] ->
  chat_api w req h t
  = insert_and_answer req m (JStr (join " " (confirmation_speech acc))) h
      (JObj [("action", JStr "instruction_and_conversation");
             ("speech", JStr (join " " (confirmation_speech acc)));
             ("instruction", JArr (final_instructions acc))]).
Proof.
  intros Hm Hl Ha Hi Hr Hc.
  rewrite (chat_api_instruction _ _ _ _ _ _ _ _ _ _ Hm Hl Ha Hi Hr).
  unfold assemble. destruct (confirmation_speech acc) as [|s cs]; [congruence|].
  reflexivity.
Qed.


(** ** Time and date (C8, C10) *)

Lemma append_nil_r (s : string) : s ++ "" = s.
Proof. induction s as [|c s IH]; cbn; [reflexivity | now rewrite IH]. Qed.

Lemma append_assoc (a b c : string) : (a ++ b) ++ c = a ++ (b ++ c).
Proof. induction a as [|x a IH]; cbn; [reflexivity | now rewrite IH]. Qed.

Lemma hour12_range d : (1 <= hour12 d <= 12)%nat.
Proof.
  unfold hour12. pose proof (Nat.mod_upper_bound (hour d) 12).
  destruct (Nat.eqb_spec (hour d mod 12) 0); lia.
Qed.

(** Two digits, spelled out. *)
Lemma two_digits_spelled n :
  (n < 100)%nat ->
  two_digits n
  = String (ascii_of_nat (48 + n / 10)) (String (ascii_of_nat (48 + n mod 10)) "").
Proof.
  intros Hn.
  assert (H : forallb
                (fun k =>
                   String.eqb (two_digits k)
                     (String (ascii_of_nat (48 + k / 10))
                        (String (ascii_of_nat (48 + k mod 10)) "")))
                (seq 0 100) = true)
    by (vm_compute; reflexivity).
  rewrite forallb_forall in H. apply String.eqb_eq, H, in_seq. lia.
Qed.

(** The two decimal printers agree on the natural numbers. *)
Lemma to_lu_of_nat n :
  DecimalPos.Unsigned.to_lu (N.of_nat n) = DecimalNat.Unsigned.to_lu n.
Proof.
  induction n; [reflexivity|].
  now rewrite Nat2N.inj_succ, DecimalPos.Unsigned.to_lu_succ, IHn.
Qed.

Lemma decZ_of_nat n : decZ (Z.of_nat n) = dec n.
Proof.
  unfold decZ, dec. rewrite DecimalNat.Unsigned.to_uint_alt, <- to_lu_of_nat.
  destruct n; reflexivity.
Qed.

Ltac divmod n k :=
  let q := fresh "q" in
  let r := fresh "r" in
  pose proof (Nat.div_mod_eq n k);
  pose proof (Nat.mod_upper_bound n k ltac:(lia));
  set (q := (n / k)%nat) in *; set (r := (n mod k)%nat) in *; clearbody q r.

(** The day of the week that [toordinal] gives is the one of the usual
    closed formula on the year, the month and the day, which counts from
    Sunday. *)
Lemma weekday_closed_formula d :
  (1 <= year d)%nat -> (1 <= month d <= 12)%nat ->
  let y := if (month d <? 3)%nat then (year d - 1)%nat else year d in
  ((y + y / 4 - y / 100 + y / 400
    + nth (month d - 1) [0; 3; 2; 5; 0; 3; 5; 1; 4; 6; 2; 4] 0 + day d) mod 7)%nat
  = ((weekday d + 1) mod 7)%nat.
Proof.
  destruct d as [y m dd hh mm]. cbn [year month day]. intros Hy Hm.
  unfold weekday, toordinal, days_before_year, days_before_month, is_leap.
  cbn [year month day]. cbv zeta.
  rewrite Nat.Div0.add_mod_idemp_l.
  destruct y as [|p]; [lia|]. replace (S p - 1)%nat with p by lia.
  assert (Hc : m = 1 \/ m = 2 \/ m = 3 \/ m = 4 \/ m = 5 \/ m = 6 \/ m = 7 \/ m = 8
               \/ m = 9 \/ m = 10 \/ m = 11 \/ m = 12) by lia.
  clear Hm Hy.
  repeat (destruct Hc as [-> | Hc]); try subst m;
    cbn [nth Nat.ltb Nat.leb Nat.sub andb];
    divmod (S p) 4%nat; divmod (S p) 100%nat; divmod (S p) 400%nat;
    divmod p 4%nat; divmod p 100%nat; divmod p 400%nat;
    try (destruct (Nat.eqb_spec r 0), (Nat.eqb_spec r0 0), (Nat.eqb_spec r1 0);
         cbn [andb orb negb]);
    match goal with
    | |- (?a mod 7 = ?b mod 7)%nat => divmod a 7%nat; divmod b 7%nat
    end;
    lia.
Qed.

Lemma day_name_from_sunday k :
  (k < 7)%nat ->
  day_name k
  = nth ((k + 1) mod 7)
      ["Sunday"; "Monday"; "Tuesday"; "Wednesday"; "Thursday"; "Friday"; "Saturday"] "".
Proof.
  intros Hk. do 7 (destruct k as [|k]; [reflexivity|]). lia.
Qed.

Lemma month_name_from_january m :
  (1 <= m <= 12)%nat ->
  month_name m
  = nth (m - 1)
      ["January"; "February"; "March"; "April"; "May"; "June"; "July"; "August";
       "September"; "October"; "November"; "December"] "".
Proof.
  intros Hm. destruct m as [|m]; [lia|].
  do 12 (destruct m as [|m]; [reflexivity|]). lia.
Qed.

(** C8.  At every reading [d] of the clock a [get_time] command adds one
    confirmation and no client instruction: "The current time is HH:MM AM."
    or "... PM.", where HH is the hour on the twelve-hour dial and MM the
    minute, both as two decimal digits ("02:05 PM" at 14:05).  A [get_date]
    command adds, for the payload "full_date", "Today is W, M DD, Y." with
    the English names of the day of the week and of the month; for "year",
    "The current year is Y."; for "last_year", "Last year was Y-1."; and for
    every other payload, text or not, "The date today is Y-MM-DD.".  No case
    raises. *)
Theorem time_and_date_confirmations w v rest acc t :
  let d := now w t in
  let two n :=
    String (ascii_of_nat (48 + n / 10)) (String (ascii_of_nat (48 + n mod 10)) "") in
  let number n := NilZero.string_of_uint (Nat.to_uint n) in
  let adds command (s : string) :=
    loop_body w (JObj ((command, v) :: rest)) acc t
    = (Ok {| final_instructions := final_instructions acc;
             confirmation_speech := (confirmation_speech acc ++ [s])%list |}, S t) in
  ((minute d < 60)%nat ->
   adds "get_time"
     ("The current time is "
      ++ two (if (hour d mod 12 =? 0)%nat then 12%nat else (hour d mod 12)%nat)
      ++ ":" ++ two (minute d)
      ++ (if (hour d <? 12)%nat then " AM." else " PM.")))
  /\ (hour d = 14%nat -> minute d = 5%nat ->
      adds "get_time" "The current time is 02:05 PM.")
  /\ (v = JStr "full_date" ->
      (1 <= year d)%nat -> (1 <= month d <= 12)%nat -> (day d < 100)%nat ->
      let y := if (month d <? 3)%nat then (year d - 1)%nat else year d in
      let day_of_week :=
        ((y + y / 4 - y / 100 + y / 400
          + nth (month d - 1) [0; 3; 2; 5; 0; 3; 5; 1; 4; 6; 2; 4] 0 + day d) mod 7)%nat in
      adds "get_date"
        ("Today is "
         ++ nth day_of_week
              ["Sunday"; "Monday"; "Tuesday"; "Wednesday"; "Thursday"; "Friday";
               "Saturday"] ""
         ++ ", "
         ++ nth (month d - 1)
              ["January"; "February"; "March"; "April"; "May"; "June"; "July";
               "August"; "September"; "October"; "November"; "December"] ""
         ++ " " ++ two (day d) ++ ", " ++ number (year d) ++ "."))
  /\ (v = JStr "year" ->
      adds "get_date" ("The current year is " ++ number (year d) ++ "."))
  /\ (v = JStr "last_year" -> (1 <= year d)%nat ->
      adds "get_date" ("Last year was " ++ number (year d - 1) ++ "."))
  /\ (v <> JStr "full_date" -> v <> JStr "year" -> v <> JStr "last_year" ->
      (month d < 100)%nat -> (day d < 100)%nat ->
      adds "get_date"
        ("The date today is " ++ number (year d) ++ "-" ++ two (month d) ++ "-"
         ++ two (day d) ++ "."))
  /\ (exists s, adds "get_time" s)
  /\ (exists s, adds "get_date" s).
Proof.
  intros d two number adds. subst adds. cbv beta.
  rewrite loop_body_get_time, loop_body_get_date. unfold say. fold d.
  assert (Htime : (minute d < 60)%nat ->
                  strftime_I_M_p d
                  = two (if (hour d mod 12 =? 0)%nat then 12%nat else (hour d mod 12)%nat)
                    ++ ":" ++ two (minute d)
                    ++ (if (hour d <? 12)%nat then " AM" else " PM")).
  { intros Hm. unfold strftime_I_M_p, am_pm.
    pose proof (hour12_range d) as Hh. unfold hour12 in *. cbv zeta in *.
    rewrite !two_digits_spelled by lia. subst two. cbv beta.
    now destruct (hour d <? 12)%nat. }
  split; [|split; [|split; [|split; [|split; [|split; [|split]]]]]].
  - intros Hm. rewrite (Htime Hm). subst two. cbv beta.
    now destruct (hour d <? 12)%nat.
  - intros H14 H5. rewrite Htime by lia. subst two. cbv beta.
    now rewrite H14, H5.
  - intros -> Hy Hm Hd. cbv zeta. cbn [eq_str String.eqb].
    pose proof (weekday_closed_formula d Hy Hm) as Hw. cbv zeta in Hw. rewrite Hw.
    unfold strftime_A_B_d_Y.
    rewrite day_name_from_sunday
      by (unfold weekday; apply Nat.mod_upper_bound; discriminate).
    rewrite (month_name_from_january _ Hm), (two_digits_spelled _ Hd).
    subst two number. cbv beta. fold (dec (year d)).
    rewrite !append_assoc. reflexivity.
  - intros ->. reflexivity.
  - intros -> Hy. cbn [eq_str String.eqb].
    replace (Z.of_nat (year d) - 1)%Z with (Z.of_nat (year d - 1)) by lia.
    now rewrite decZ_of_nat.
  - intros H1 H2 H3 Hm Hd. apply eq_str_false in H1, H2, H3. rewrite H1, H2, H3.
    unfold strftime_Y_m_d. rewrite (two_digits_spelled _ Hm), (two_digits_spelled _ Hd).
    subst two number. cbv beta. fold (dec (year d)).
    rewrite !append_assoc. reflexivity.
  - eexists. reflexivity.
  - eexists. reflexivity.
Qed.

Lemma time_and_date_confirmations_witness :
  loop_body quiet_world (cmd "get_time" (JStr "current"))
    {| final_instructions := [open_wikipedia]; confirmation_speech := ["Hello."] |} 0
  = (Ok {| final_instructions := [open_wikipedia];
           confirmation_speech := ["Hello."; "The current time is 02:05 PM."] |}, 1%nat)
  /\ loop_body quiet_world (cmd "get_date" (JStr "full_date")) empty_acc 0
     = (Ok {| final_instructions := [];
              confirmation_speech := ["Today is Tuesday, November 03, 2026."] |}, 1%nat)
  /\ loop_body quiet_world (cmd "get_date" (JStr "last_year")) empty_acc 0
     = (Ok {| final_instructions := [];
              confirmation_speech := ["Last year was 2025."] |}, 1%nat)
  /\ loop_body quiet_world (cmd "get_date" (JInt 7)) empty_acc 0
     = (Ok {| final_instructions := [];
              confirmation_speech := ["The date today is 2026-11-03."] |}, 1%nat).
Proof.
  pose proof (time_and_date_confirmations quiet_world (JStr "current") []
                {| final_instructions := [open_wikipedia];
                   confirmation_speech := ["Hello."] |} 0)
    as (Htime & _).
  pose proof (time_and_date_confirmations quiet_world (JStr "full_date") [] empty_acc 0)
    as (_ & _ & Hfull & _).
  pose proof (time_and_date_confirmations quiet_world (JStr "last_year") [] empty_acc 0)
    as (_ & _ & _ & _ & Hlast & _).
  pose proof (time_and_date_confirmations quiet_world (JInt 7) [] empty_acc 0)
    as (_ & _ & _ & _ & _ & Hother & _).
  split; [|split; [|split]].
  - apply Htime. cbn. lia.
  - apply Hfull; [reflexivity | cbn; lia ..].
  - apply Hlast; [reflexivity | cbn; lia].
  - apply Hother; [discriminate .. | cbn; lia | cbn; lia].
Defined.

(** C10. The payload of a [get_time] command is ignored: whatever the two
    payloads (and whatever else the two objects carry), at the same reading
    of the clock the two commands leave the same accumulators, with one
    confirmation more and the client instructions untouched. *)
Theorem get_time_payload_ignored w v1 v2 rest1 rest2 acc t :
  loop_body w (JObj (("get_time", v1) :: rest1)) acc t
  = loop_body w (JObj (("get_time", v2) :: rest2)) acc t
  /\ run_loop w [JObj [("get_time", v1)]] empty_acc t
     = run_loop w [JObj [("get_time", v2)]] empty_acc t
  /\ exists s,
       run_loop w [JObj [("get_time", v1)]] empty_acc t
       = (Ok {| final_instructions := []; confirmation_speech := [s] |}, S t).
Proof.
  split; [now rewrite !loop_body_get_time|].
  split.
  - cbn [run_loop]. unfold bind. now rewrite !loop_body_get_time.
  - eexists. cbn [run_loop]. unfold bind. rewrite loop_body_get_time. reflexivity.
Qed.

Lemma example_replies reply yt weather :
  model_replies (example_world reply yt weather) example_request [] 0 "hello" reply.
Proof.
  repeat split; try discriminate. eexists. split; reflexivity.
Qed.

(** ** Video and music commands (C9) *)

(** C9, as the code has it.  A [play_youtube_direct] or
    [play_spotify_direct] command always returns: it appends the message of
    its helper to the confirmations, and the client instruction
    [{"open_url": url}] to the client instructions exactly when the helper
    returned a url.  When the command is alone in the list and its helper
    returns no url, the response is [instruction_and_conversation] with the
    helper's message as speech and an empty instruction list, and that
    message is the row written, provided the message of the user can be
    stored and the message of the helper holds no lone surrogate; otherwise
    the [INSERT] fails and the caller gets the generic apology with status
    500 and no row. *)
Theorem play_commands w q rest acc t :
  (exists url speech t',
      get_youtube_video_url w q t = (Ok (url, speech), t')
      /\ loop_body w (JObj (("play_youtube_direct", q) :: rest)) acc t
         = (Ok {| final_instructions :=
                    (final_instructions acc
                     ++ match url with
                        | Some u => [JObj [("open_url", JStr u)]]
                        | None => []
                        end)%list;
                  confirmation_speech := (confirmation_speech acc ++ [speech])%list |},
            t'))
  /\ (exists url speech t',
      get_spotify_track_url w q t = (Ok (url, speech), t')
      /\ loop_body w (JObj (("play_spotify_direct", q) :: rest)) acc t
         = (Ok {| final_instructions :=
                    (final_instructions acc
                     ++ match url with
                        | Some u => [JObj [("open_url", JStr u)]]
                        | None => []
                        end)%list;
                  confirmation_speech := (confirmation_speech acc ++ [speech])%list |},
            t'))
  /\ (forall req h user_query text o command speech t',
        model_answers w req h t user_query text ->
        loads w (clean_response_text text) = Ok (JObj o) ->
        dict_get o "action" = Some (JStr "instruction") ->
        instruction_items (JObj o) = Ok [JObj [(command, q)]] ->
        (command = "play_youtube_direct"
         /\ get_youtube_video_url w q (S (S t)) = (Ok (None, speech), t'))
        \/ (command = "play_spotify_direct"
            /\ get_spotify_track_url w q (S (S t)) = (Ok (None, speech), t')) ->
        (forall stored_query,
            stored_as user_query stored_query -> has_surrogate speech = false ->
            chat_api w req h t
            = (jsonify (JObj [("action", JStr "instruction_and_conversation");
                              ("speech", JStr speech);
                              ("instruction", JArr [])]) 200,
               (h ++ [{| row_user_id := user_id req;
                         user_message := stored_query;
                         bot_response := SqlText speech |}])%list))
        /\ (not_stored user_query \/ has_surrogate speech = true ->
            chat_api w req h t
            = (jsonify (JObj [("action", JStr "conversation");
                              ("speech", JStr unexpected_error)]) 500, h))).
Proof.
  assert (Hadd : forall url speech,
             url_ok url ->
             say (push_url acc url) speech
             = {| final_instructions :=
                    (final_instructions acc
                     ++ match url with
                        | Some u => [JObj [("open_url", JStr u)]]
                        | None => []
                        end)%list;
                  confirmation_speech := (confirmation_speech acc ++ [speech])%list |}).
  { intros url speech Hu. rewrite (push_url_ok _ _ Hu).
    destruct url; unfold say, push; cbn; [reflexivity | now rewrite app_nil_r]. }
  split; [|split].
  - destruct (get_youtube_video_url_returns w q t) as (url & speech & t' & E & Hu).
    exists url, speech, t'. split; [assumption|].
    now rewrite loop_body_play_youtube, E, (Hadd _ _ Hu).
  - destruct (get_spotify_track_url_returns w q t) as (url & speech & t' & E & Hu).
    exists url, speech, t'. split; [assumption|].
    now rewrite loop_body_play_spotify, E, (Hadd _ _ Hu).
  - intros req h user_query text o command speech t' Hm Hl Ha Hi Hp.
    assert (Hr : run_loop w [JObj [(command, q)]] empty_acc (S (S t))
                 = (Ok (say empty_acc speech), t')).
    { cbn [run_loop]. unfold bind.
      destruct Hp as [[-> E] | [-> E]].
      - now rewrite loop_body_play_youtube, E.
      - now rewrite loop_body_play_spotify, E. }
    rewrite (chat_api_confirmations _ _ _ _ _ _ _ _ _ _ Hm Hl Ha Hi Hr)
      by discriminate.
    cbn [say empty_acc confirmation_speech final_instructions app join String.concat].
    split.
    + intros um Hq Hs. apply insert_and_answer_stored; [assumption | now constructor].
    + intros Hq. apply insert_and_answer_not_stored.
      destruct Hq as [Hq | Hs]; [now left | right; now constructor].
Qed.

Lemma play_commands_witness :
  loop_body (example_world "" (Some two_videos) (Ok sunny))
    (JObj [("play_youtube_direct", JStr "lofi")])
    {| final_instructions := [open_wikipedia];
       confirmation_speech := ["The current time is 02:05 PM."] |} 0
  = (Ok {| final_instructions :=
             [open_wikipedia;
              JObj [("open_url", JStr "https://www.youtube.com/embed/b2")]];
           confirmation_speech :=
             ["The current time is 02:05 PM.";
              "Playing the top result for 'lofi' on YouTube."] |}, 2%nat)
  /\ chat_api
       (example_world (fenced (instruction_doc [] [cmd "play_youtube_direct" (JStr "lofi")]))
          (Some no_videos) (Ok sunny))
       example_request [] 0
     = (jsonify (JObj [("action", JStr "instruction_and_conversation");
                       ("speech", JStr "I couldn't find any YouTube videos for 'lofi'.");
                       ("instruction", JArr [])]) 200,
        [{| row_user_id := 1; user_message := SqlText "hello";
            bot_response :=
              SqlText "I couldn't find any YouTube videos for 'lofi'." |}])
  /\ chat_api (nothing_found_world lone_surrogate) example_request [] 0
     = (jsonify (JObj [("action", JStr "conversation");
                       ("speech", JStr unexpected_error)]) 500, []).
Proof.
  split; [|split].
  - destruct (proj1 (play_commands (example_world "" (Some two_videos) (Ok sunny))
                       (JStr "lofi") []
                       {| final_instructions := [open_wikipedia];
                          confirmation_speech := ["The current time is 02:05 PM."] |}
                       0))
      as (url & speech & t' & E & L).
    rewrite L. vm_compute in E. injection E as <- <- <-. reflexivity.
  - refine (proj1 (proj2 (proj2 (play_commands _ (JStr "lofi") [] empty_acc 0))
              example_request [] (JStr "hello") _ _ "play_youtube_direct"
              "I couldn't find any YouTube videos for 'lofi'." 3%nat
              (model_replies_answers _ _ _ _ _ _ (example_replies _ _ _)) _ _ _ _)
              (SqlText "hello") (stored_text "hello" eq_refl) eq_refl).
    + vm_compute. reflexivity.
    + reflexivity.
    + reflexivity.
    + left. split; reflexivity.
  - refine (proj2 (proj2 (proj2 (play_commands (nothing_found_world lone_surrogate)
                                   (JStr lone_surrogate) [] empty_acc 0))
              example_request [] (JStr "hello") "" _ "play_youtube_direct"
              ("I couldn't find any YouTube videos for '" ++ lone_surrogate ++ "'.")
              3%nat _ eq_refl eq_refl eq_refl _) _).
    + repeat split. eexists. split; reflexivity.
    + left. split; reflexivity.
    + right. reflexivity.
Defined.

(** C9 as the specification words it fails: a search term that holds a lone
    surrogate comes back in the fallback sentence of the helper, the
    [INSERT] of that sentence fails, and the response is the generic apology
    instead of [instruction_and_conversation]. *)
Lemma fallback_sentence_may_not_be_stored :
  ~ (forall w req h t user_query text o q speech t',
        model_replies w req h t user_query text ->
        loads w (clean_response_text text) = Ok (JObj o) ->
        dict_get o "action" = Some (JStr "instruction") ->
        instruction_items (JObj o) = Ok [JObj [("play_youtube_direct", q)]] ->
        get_youtube_video_url w q (S (S t)) = (Ok (None, speech), t') ->
        fst (chat_api w req h t)
        = jsonify (JObj [("action", JStr "instruction_and_conversation");
                         ("speech", JStr speech);
                         ("instruction", JArr [])]) 200).
Proof.
  intros H.
  specialize (H (nothing_found_world lone_surrogate) example_request [] 0%nat
                "hello" ""
                [("action", JStr "instruction");
                 ("instruction", JArr [cmd "play_youtube_direct" (JStr lone_surrogate)])]
                (JStr lone_surrogate)
                ("I couldn't find any YouTube videos for '" ++ lone_surrogate ++ "'.")
                3%nat).
  assert (Hm : model_replies (nothing_found_world lone_surrogate) example_request []
                 0 "hello" "").
  { repeat split; try discriminate. eexists. split; reflexivity. }
  specialize (H Hm eq_refl eq_refl eq_refl eq_refl).
  vm_compute in H. discriminate H.
Qed.

(** ** Assembling the response (C6, C4) *)







(** ** Shapes the handler does not reject (C1) *)




(** ** Failures (C5) *)

Lemma process_response_ok_status w uid m h text t r t' :
  process_response w uid m h text t = (Ok r, t') -> status (fst r) = 200%Z.
Proof.
  unfold process_response. run. split_matches; intros [= <- _]; reflexivity.
Qed.

(** What the two [except] clauses make of a failure, once the guards have
    passed.  When the cleaned text of the model is not valid JSON the caller
    gets the fixed reply "I'm having a little trouble understanding. ..."
    with status 500.  When anything raises while the text of the model is
    processed, the caller gets a fixed apology with status 500: the generic
    "I'm sorry, an unexpected error occurred. ..." unless the exception is a
    JSON decoding error.  When the call of the model raises, the caller gets
    the generic apology unless the exception is a JSON decoding error, which
    leaves the handler as an [UnboundLocalError].  Whatever the outcome, the
    table changes only when the status is 200. *)
Lemma failure_outcomes w req h t generate m :
  logged_in req = true ->
  model w = Some generate ->
  message req = Ok m ->
  truthy m = true ->
  (forall text,
      generate (S t) (strftime_A_B_d_Y (now w t))
               (select_conversations (user_id req) h) (str w m) = Ok text ->
      (loads w (clean_response_text text) = Raise JSONDecodeError ->
       chat_api w req h t = (jsonify (conversation trouble_understanding) 500, h))
      /\ (forall e t',
            process_response w (user_id req) m h text (S (S t)) = (Raise e, t') ->
            chat_api w req h t
            = (jsonify (conversation
                          (if isinstance_JSONDecodeError e then trouble_understanding
                           else unexpected_error)) 500, h)))
  /\ (forall e,
        generate (S t) (strftime_A_B_d_Y (now w t))
                 (select_conversations (user_id req) h) (str w m) = Raise e ->
        chat_api w req h t
        = (if isinstance_JSONDecodeError e then unhandled UnboundLocalError
           else jsonify (conversation unexpected_error) 500, h))
  /\ (status (fst (chat_api w req h t)) <> 200%Z -> snd (chat_api w req h t) = h).
Proof.
  intros Hl Hg Hm Hq.
  assert (E : chat_api w req h t
              = match generate (S t) (strftime_A_B_d_Y (now w t))
                        (select_conversations (user_id req) h) (str w m) with
                | Ok text =>
                    except_clauses h
                      (fst (process_response w (user_id req) m h text (S (S t))))
                | Raise e => (except_clauses_unbound e, h)
                end).
  { unfold chat_api. rewrite Hl, Hg, Hm, Hq. cbn [negb].
    unfold model_text. run. now destruct (generate _ _ _ _). }
  split; [|split].
  - intros text Ht. rewrite E, Ht. split.
    + intros Hd. unfold process_response. run. now rewrite Hd.
    + intros e t' He. rewrite He. cbn. now destruct (isinstance_JSONDecodeError e).
  - intros e He. now rewrite E, He.
  - rewrite E. destruct (generate _ _ _ _) as [text|e]; [|reflexivity].
    destruct (process_response w (user_id req) m h text (S (S t))) as [[r|e] t'] eqn:Ht;
      cbn.
    + apply process_response_ok_status in Ht. congruence.
    + now destruct (isinstance_JSONDecodeError e).
Qed.

Example failure_outcomes_example :
  chat_api (example_world truncated_reply None (Ok sunny)) example_request [] 0
  = (jsonify (conversation trouble_understanding) 500, [])
  /\ chat_api (example_world (fenced (JInt 5)) None (Ok sunny)) example_request [] 0
     = (jsonify (conversation unexpected_error) 500, [])
  /\ chat_api offline_world example_request [] 0
     = (jsonify (conversation unexpected_error) 500, []).
Proof. repeat split. Qed.

(** C5 on the code.  The first [except] clause prints [response_text]: when
    the call of the model itself raises a JSON decoding error, that name is
    not assigned yet, the clause raises [UnboundLocalError] and the caller
    gets the error page of the framework instead of the fixed apology.  And a
    JSON decoding error raised while the commands are run, here by the
    weather helper, which lets it through, is answered with the reply for
    an unreadable model text instead of the generic apology.  The table is
    untouched in both cases. *)
Theorem decoding_errors_miss_the_apology :
  chat_api garbled_world example_request example_history 0
  = (unhandled UnboundLocalError, example_history)
  /\ get_weather (example_world "" None (Raise JSONDecodeError)) (JStr "paris") 0
     = (Raise JSONDecodeError, 1%nat)
  /\ chat_api
       (example_world
          (fenced (instruction_doc []
                     [cmd "get_time" (JStr "current"); cmd "get_weather" (JStr "paris")]))
          None (Raise JSONDecodeError))
       example_request example_history 0
     = (jsonify
          (JObj [("action", JStr "conversation");
                 ("speech",
                  JStr "I'm having a little trouble understanding. Could you rephrase that?")])
          500, example_history).
Proof. split; [|split]; vm_compute; reflexivity. Qed.

(** ** Commands the loop does not know (C2) *)

(** C2, as the code has it.  An element that is a dictionary whose first key
    is none of the five commands run on the server is appended unchanged to
    the client instructions, adds no confirmation, touches nothing outside
    and cannot raise; so inserting it anywhere in a list changes neither
    whether the other commands succeed nor what they add.  (An element that
    is not a dictionary, or an empty one, is outside this statement.) *)
Theorem unknown_commands_pass_through w k v rest :
  is_server_side k = false ->
  (forall acc t,
      loop_body w (JObj ((k, v) :: rest)) acc t
      = (Ok (push acc (JObj ((k, v) :: rest))), t))
  /\ (forall pre post acc t,
        run_loop w (pre ++ JObj ((k, v) :: rest) :: post)%list acc t
        = bind (run_loop w pre acc)
            (fun a => run_loop w post (push a (JObj ((k, v) :: rest)))) t)
  /\ (forall pre post acc t a1 t1 a2 t2,
        run_loop w pre acc t = (Ok a1, t1) ->
        run_loop w post empty_acc t1 = (Ok a2, t2) ->
        run_loop w (pre ++ post)%list acc t = (Ok (extend a1 a2), t2)
        /\ run_loop w (pre ++ JObj ((k, v) :: rest) :: post)%list acc t
           = (Ok (extend (push a1 (JObj ((k, v) :: rest))) a2), t2)).
Proof.
  intros Hk.
  assert (Hbody : forall acc t,
             loop_body w (JObj ((k, v) :: rest)) acc t
             = (Ok (push acc (JObj ((k, v) :: rest))), t))
    by (intros; now apply loop_body_other).
  assert (Hmid : forall pre post acc t,
             run_loop w (pre ++ JObj ((k, v) :: rest) :: post)%list acc t
             = bind (run_loop w pre acc)
                 (fun a => run_loop w post (push a (JObj ((k, v) :: rest)))) t).
  { intros pre post acc t. rewrite run_loop_app. unfold bind.
    destruct (run_loop w pre acc t) as [[a|e] t1]; [|reflexivity].
    cbn [run_loop]. unfold bind. now rewrite Hbody. }
  split; [exact Hbody | split; [exact Hmid|]].
  intros pre post acc t a1 t1 a2 t2 H1 H2. split.
  - rewrite run_loop_app. unfold bind. rewrite H1, run_loop_frame, H2. reflexivity.
  - rewrite Hmid. unfold bind. rewrite H1, run_loop_frame, H2. reflexivity.
Qed.

Lemma unknown_commands_pass_through_witness :
  run_loop quiet_world five_commands empty_acc 0
  = (Ok {| final_instructions :=
             [cmd "search_google" (JStr "rocq"); cmd "set_alarm" (JStr "7am");
              open_wikipedia];
           confirmation_speech :=
             ["The current time is 02:05 PM."; "The current year is 2026."] |},
     2%nat).
Proof.
  refine (proj2 (proj2 (proj2
            (unknown_commands_pass_through quiet_world "set_alarm" (JStr "7am") [] eq_refl))
            [cmd "get_time" (JStr "current"); cmd "search_google" (JStr "rocq")]
            [open_wikipedia; cmd "get_date" (JStr "year")]
            empty_acc 0%nat
            {| final_instructions := [cmd "search_google" (JStr "rocq")];
               confirmation_speech := ["The current time is 02:05 PM."] |} 1%nat
            {| final_instructions := [open_wikipedia];
               confirmation_speech := ["The current year is 2026."] |} 2%nat
            _ _)); reflexivity.
Defined.

(** C2 as the specification words it fails: one element that is not a
    dictionary (here a text) makes the loop raise, although the list without
    it is dispatched. *)
Lemma malformed_element_aborts_the_loop :
  ~ (forall w pre x post acc t a t',
        run_loop w (pre ++ post)%list acc t = (Ok a, t') ->
        exists a' t'', run_loop w (pre ++ x :: post)%list acc t = (Ok a', t'')).
Proof.
  intros H.
  destruct (H quiet_world [cmd "get_time" (JStr "current")] (JStr "oops")
              [open_wikipedia] empty_acc 0%nat
              {| final_instructions := [open_wikipedia];
                 confirmation_speech := ["The current time is 02:05 PM."] |} 1%nat
              eq_refl) as (a' & t'' & E).
  vm_compute in E. discriminate E.
Qed.

(** The same list in a request: the generic apology, and no row. *)
Example malformed_element_fails_the_request :
  chat_api
    (example_world
       (fenced (instruction_doc []
                  [cmd "get_time" (JStr "current"); JStr "oops"; open_wikipedia]))
       None (Ok sunny))
    example_request [] 0
  = (jsonify (conversation unexpected_error) 500, []).
Proof. vm_compute. reflexivity. Qed.

(** ** Order of the outputs (C7) *)

(** C7.  Whatever the list, the loop either raises at one of its commands or
    returns, and then the confirmations are the confirmations of the
    commands in input order and the client instructions are the client
    instructions of the commands in input order, each command contributing
    at most one of each; what the accumulators held before stays in front. *)
Theorem dispatch_preserves_order w instrs acc t :
  match run_loop w instrs acc t with
  | (Ok acc', t') =>
      exists outs,
        steps w t instrs outs t'
        /\ confirmation_speech acc'
           = (confirmation_speech acc ++ concat (map confirmation_speech outs))%list
        /\ final_instructions acc'
           = (final_instructions acc ++ concat (map final_instructions outs))%list
        /\ Forall (fun d => (length (confirmation_speech d) <= 1)%nat
                            /\ (length (final_instructions d) <= 1)%nat) outs
  | (Raise e, t') =>
      exists pre instr post t1,
        instrs = (pre ++ instr :: post)%list
        /\ loop_body w instr empty_acc t1 = (Raise e, t')
  end.
Proof.
  revert acc t. induction instrs as [|instr rest IH]; intros acc t.
  - cbn. exists []. cbn. rewrite !app_nil_r. repeat split; constructor.
  - cbn [run_loop]. unfold bind. rewrite loop_body_frame.
    destruct (loop_body w instr empty_acc t) as [[d|e] t1] eqn:E; cbn [after].
    + specialize (IH (extend acc d) t1).
      destruct (run_loop w rest (extend acc d) t1) as [[acc'|e] t'].
      * destruct IH as (outs & Hs & Hc & Hi & Hf).
        exists (d :: outs). cbn [map concat]. repeat split.
        -- econstructor; eassumption.
        -- rewrite Hc. cbn. now rewrite app_assoc.
        -- rewrite Hi. cbn. now rewrite app_assoc.
        -- constructor; [|assumption].
           eapply loop_body_adds_at_most_one; eassumption.
      * destruct IH as (pre & i & post & t0 & -> & Hr).
        exists (instr :: pre), i, post, t0. split; [reflexivity | assumption].
    + exists [], instr, rest, t. split; [reflexivity | assumption].
Qed.

(** ** The weather helper lets exceptions through (C3) *)

(** [get_weather] catches two classes only: any other exception of the
    request, and any failure to read the answer that is not a missing key,
    leaves the helper. *)
Lemma get_weather_uncaught w key city t e :
  WEATHER_API_KEY w = Some key -> key <> "" ->
  requests_get_json w t city key = Raise e ->
  isinstance_RequestException e = false ->
  isinstance_KeyError e = false ->
  get_weather w city t = (Raise e, S t).
Proof.
  intros Hk Hne Hr H1 H2. unfold get_weather, try_except. rewrite Hk.
  destruct key; [congruence|]. run. now rewrite Hr, H1, H2.
Qed.

(** C3 on the code: with a weather service whose answer lists no weather
    condition, [data['weather'][0]] raises [IndexError], [get_weather] lets
    it through, and the request, whose first command had succeeded, ends in
    the generic apology with no row written. *)
Theorem get_weather_raises :
  get_weather (example_world "" None (Ok no_condition)) (JStr "paris") 0
  = (Raise IndexError, 1%nat)
  /\ chat_api
       (example_world
          (fenced (instruction_doc []
                     [cmd "get_time" (JStr "current"); cmd "get_weather" (JStr "paris")]))
          None (Ok no_condition))
       example_request [] 0
     = (jsonify (conversation unexpected_error) 500, []).
Proof. split; vm_compute; reflexivity. Qed.

(** * Further properties *)

(** ** Cleaning the text of the model *)

Lemma prefix_app (p s : string) : String.prefix p (p ++ s) = true.
Proof.
  induction p as [|c p IH]; cbn; [now destruct s|].
  destruct (ascii_dec c c); [assumption | congruence].
Qed.

Lemma contains_prefix (pat s : string) :
  String.prefix pat s = true -> contains pat s = true.
Proof. intros H. destruct s; cbn [contains]; now rewrite H. Qed.

Lemma contains_app (pat a b : string) : contains pat (a ++ pat ++ b) = true.
Proof.
  induction a as [|c a IH]; cbn [append].
  - apply contains_prefix, prefix_app.
  - cbn [contains]. rewrite IH. apply orb_true_r.
Qed.

Lemma dec_backtick (c : ascii) (A : Type) (x y : A) :
  (if ascii_dec "`" c then x else y) = if Ascii.eqb c backtick then x else y.
Proof.
  change backtick with "`"%char.
  destruct (ascii_dec "`" c) as [<-|H]; [reflexivity|].
  destruct (Ascii.eqb_spec c "`"); congruence.
Qed.

Lemma prefix_backticks (s : string) :
  String.prefix backticks s = (3 <=? leading_backticks s)%nat.
Proof.
  change backticks with "```".
  destruct s as [|a [|b [|c s]]]; cbn [String.prefix leading_backticks];
    rewrite ?dec_backtick;
    repeat match goal with
           | |- context [Ascii.eqb ?x backtick] => destruct (Ascii.eqb x backtick)
           end; try reflexivity; destruct s; reflexivity.
Qed.

Lemma remove_from_unfold (old : string) (c : ascii) (s : string) :
  remove_from old 0 (String c s)
  = if String.prefix old (String c s)
    then remove_from old (String.length old - 1) s
    else String c (remove_from old 0 s).
Proof. reflexivity. Qed.

Lemma contains_unfold (pat : string) (c : ascii) (s : string) :
  contains pat (String c s) = String.prefix pat (String c s) || contains pat s.
Proof. reflexivity. Qed.

(** Removing the fences leaves, of a run of backticks, its length modulo
    three, and so no fence. *)
Lemma remove_backticks_invariant : forall n s,
  (String.length s <= n)%nat ->
  leading_backticks (remove_from backticks 0 s) = (leading_backticks s mod 3)%nat
  /\ contains backticks (remove_from backticks 0 s) = false.
Proof.
  induction n as [|n IH]; intros s Hn.
  - destruct s; [|cbn in Hn; lia]. split; reflexivity.
  - destruct s as [|c s]; [split; reflexivity|].
    rewrite remove_from_unfold.
    destruct (String.prefix backticks (String c s)) eqn:Hp.
    + rewrite prefix_backticks in Hp. apply Nat.leb_le in Hp.
      destruct s as [|c2 [|c3 s]]; cbn [leading_backticks] in Hp;
        repeat match type of Hp with
               | context [Ascii.eqb ?x backtick] =>
                   destruct (Ascii.eqb x backtick) eqn:?
               end; try lia.
      change (String.length backticks - 1)%nat with 2%nat.
      cbn [remove_from]. cbn [leading_backticks]. rewrite Heqb, Heqb0, Heqb1.
      destruct (IH s) as [H1 H2]; [cbn in Hn; lia|].
      split; [|assumption].
      rewrite H1.
      replace (S (S (S (leading_backticks s)))) with (leading_backticks s + 1 * 3)%nat
        by lia.
      now rewrite Nat.Div0.mod_add.
    + destruct (IH s) as [H1 H2]; [cbn in Hn; lia|].
      pose proof Hp as Hlt. rewrite prefix_backticks in Hlt.
      apply Nat.leb_gt in Hlt.
      assert (Hl : leading_backticks (String c (remove_from backticks 0 s))
                   = (leading_backticks (String c s) mod 3)%nat).
      { rewrite (Nat.mod_small _ 3 Hlt). cbn [leading_backticks] in *.
        destruct (Ascii.eqb c backtick); [|reflexivity].
        rewrite H1, Nat.mod_small by lia. reflexivity. }
      split; [assumption|].
      rewrite contains_unfold, H2, orb_false_r, prefix_backticks, Hl.
      apply Nat.leb_gt. apply Nat.mod_upper_bound. lia.
Qed.

(** X1.  Whatever the model wrote, the text handed to [json.loads] holds no
    code fence: three backticks in a row occur nowhere in it. *)
Theorem cleaned_text_has_no_fence (text a b : string) :
  clean_response_text text <> a ++ backticks ++ b.
Proof.
  intros E.
  pose proof (contains_app backticks a b) as Hc. rewrite <- E in Hc.
  unfold clean_response_text in Hc.
  change (remove_all backticks ?x) with (remove_from backticks 0 x) in Hc.
  destruct (remove_backticks_invariant _
              (remove_all (backticks ++ "json") (strip text)) (Nat.le_refl _))
    as [_ H].
  congruence.
Qed.

(** *** [strip] *)

Lemma concat_chars_from : forall s cur, String.concat "" (chars_from cur s) = cur ++ s.
Proof.
  induction s as [|c s IH]; intros cur; cbn [chars_from].
  - cbn. now rewrite append_nil_r.
  - destruct (is_continuation c).
    + rewrite IH, append_assoc. reflexivity.
    + specialize (IH (String c "")).
      destruct (chars_from (String c "") s) as [|x l] eqn:E.
      * destruct s; cbn in E; [discriminate | destruct (is_continuation a); discriminate].
      * cbn [String.concat]. cbn [String.concat] in IH. rewrite IH. reflexivity.
Qed.

Lemma concat_chars (s : string) : String.concat "" (chars s) = s.
Proof. destruct s as [|c s]; [reflexivity|]. apply concat_chars_from. Qed.

Lemma chars_from_app : forall a cur c b,
  is_continuation c = false ->
  chars_from cur (a ++ String c b)
  = (chars_from cur a ++ chars_from (String c "") b)%list.
Proof.
  induction a as [|d a IH]; intros cur c b Hc; cbn [append chars_from].
  - now rewrite Hc.
  - destruct (is_continuation d); now rewrite IH.
Qed.

Lemma chars_app (a : string) (c : ascii) (b : string) :
  is_continuation c = false ->
  chars (a ++ String c b) = (chars a ++ chars (String c b))%list.
Proof.
  intros Hc. destruct a as [|d a]; [reflexivity|].
  cbn [append chars]. now apply chars_from_app.
Qed.

Lemma chars_from_head : forall s cur,
  exists z l, chars_from cur s = (cur ++ z) :: l.
Proof.
  induction s as [|c s IH]; intros cur; cbn [chars_from].
  - exists "", []. now rewrite append_nil_r.
  - destruct (is_continuation c).
    + destruct (IH (cur ++ String c "")) as (z & l & E).
      exists (String c z), l. rewrite E, append_assoc. reflexivity.
    + exists "", (chars_from (String c "") s). now rewrite append_nil_r.
Qed.

Lemma space_is_not_continuation (c : ascii) :
  isspace (String c "") = true -> is_continuation c = false.
Proof.
  destruct c as [[] [] [] [] [] [] [] []]; vm_compute; congruence.
Qed.

Lemma backtick_led_is_not_space (z : string) : isspace (String "`" z) = false.
Proof. destruct z; reflexivity. Qed.

Lemma chars_all_space : forall ws,
  all_space ws = true -> Forall (fun x => isspace x = true) (chars ws).
Proof.
  induction ws as [|c ws IH]; cbn [all_space]; intros H; [constructor|].
  apply andb_true_iff in H as [Hc Hws].
  destruct ws as [|d ws].
  - cbn. constructor; [assumption | constructor].
  - change (String c (String d ws)) with (String c "" ++ String d ws).
    rewrite chars_app.
    + cbn [chars chars_from app]. constructor; [assumption | now apply IH].
    + cbn [all_space] in Hws. apply andb_true_iff in Hws as [Hd _].
      now apply space_is_not_continuation.
Qed.

Lemma dropwhile_all {A} (p : A -> bool) (l1 l2 : list A) :
  Forall (fun x => p x = true) l1 -> dropwhile p (l1 ++ l2)%list = dropwhile p l2.
Proof.
  induction 1 as [|x l Hx _ IH]; cbn; [reflexivity | now rewrite Hx].
Qed.

(** White space around a text that begins and ends with a backtick is all
    that [strip] removes. *)
Lemma strip_backticked (ws1 y ws2 : string) :
  all_space ws1 = true -> all_space ws2 = true ->
  strip (ws1 ++ String "`" (y ++ String "`" ws2)) = String "`" (y ++ String "`" "").
Proof.
  intros H1 H2.
  assert (Hb : is_continuation "`" = false) by reflexivity.
  unfold strip.
  rewrite (chars_app ws1 "`" _ Hb).
  change (String "`" (y ++ String "`" ws2)) with ((String "`" y) ++ String "`" ws2).
  rewrite (chars_app (String "`" y) "`" ws2 Hb).
  assert (Hlast : chars (String "`" ws2) = ("`" :: chars ws2)%list).
  { destruct ws2 as [|d ws2]; [reflexivity|].
    change (String "`" (String d ws2)) with ("`" ++ String d ws2).
    rewrite chars_app; [reflexivity|].
    cbn [all_space] in H2. apply andb_true_iff in H2 as [Hd _].
    now apply space_is_not_continuation. }
  rewrite Hlast.
  destruct (chars_from_head y "`") as (z & l & Hhd).
  cbn [chars]. rewrite Hhd.
  rewrite (dropwhile_all _ _ _ (chars_all_space _ H1)).
  cbn [app dropwhile]. change ("`" ++ z) with (String "`" z).
  rewrite backtick_led_is_not_space.
  change (String "`" z :: (l ++ "`" :: chars ws2))%list
    with ((String "`" z :: l) ++ ["`"] ++ chars ws2)%list.
  rewrite !rev_app_distr, <- app_assoc.
  rewrite dropwhile_all by (apply Forall_rev, chars_all_space, H2).
  change (List.rev ["`"]) with ["`"]. cbn [app dropwhile].
  replace (isspace "`") with false by reflexivity.
  change ("`" :: List.rev (String "`" z :: l))%list
    with (["`"] ++ List.rev (String "`" z :: l))%list.
  rewrite rev_app_distr, rev_involutive. cbn [List.rev app].
  change (String "`" z :: l ++ ["`"])%list with ((("`" ++ z)%string :: l) ++ ["`"])%list.
  rewrite <- Hhd.
  change (chars_from "`" y ++ ["`"])%list
    with (chars_from "`" y ++ chars_from "`" "")%list.
  rewrite <- (chars_from_app y "`" "`" "" Hb).
  apply (concat_chars (String "`" (y ++ String "`" ""))).
Qed.

(** *** [replace] *)

Lemma remove_from_skip (old : string) : forall p rest,
  remove_from old (String.length p) (p ++ rest) = remove_from old 0 rest.
Proof.
  induction p as [|c p IH]; intros rest; [reflexivity|].
  cbn [String.length append remove_from]. apply IH.
Qed.

(** An occurrence at the head is removed whole. *)
Lemma remove_from_head (c : ascii) (p rest : string) :
  remove_from (String c p) 0 (String c p ++ rest) = remove_from (String c p) 0 rest.
Proof.
  cbn [append]. rewrite remove_from_unfold.
  change (String c (p ++ rest)) with (String c p ++ rest) at 1.
  rewrite prefix_app.
  replace (String.length (String c p) - 1)%nat with (String.length p)
    by (cbn [String.length]; lia).
  apply remove_from_skip.
Qed.

(** A pattern that begins with a backtick does not occur where there is no
    backtick. *)
Lemma remove_from_no_backtick (p : string) : forall body tail,
  no_backtick body = true ->
  remove_from (String "`" p) 0 (body ++ tail)
  = body ++ remove_from (String "`" p) 0 tail.
Proof.
  induction body as [|c body IH]; intros tail H; [reflexivity|].
  cbn [no_backtick] in H. apply andb_true_iff in H as [Hc Hb].
  cbn [append]. rewrite remove_from_unfold. cbn [String.prefix].
  rewrite dec_backtick. apply negb_true_iff in Hc. rewrite Hc.
  now rewrite IH.
Qed.

Lemma no_backtick_app (a b : string) :
  no_backtick (a ++ b) = no_backtick a && no_backtick b.
Proof.
  induction a as [|c a IH]; cbn; [reflexivity|]. now rewrite IH, andb_assoc.
Qed.

Lemma no_backtick_chars_from : forall s cur,
  no_backtick cur = true -> no_backtick s = true ->
  Forall (fun x => no_backtick x = true) (chars_from cur s).
Proof.
  induction s as [|c s IH]; intros cur Hcur Hs; cbn [chars_from].
  - constructor; [assumption | constructor].
  - cbn [no_backtick] in Hs. apply andb_true_iff in Hs as [Hc Hs].
    destruct (is_continuation c).
    + apply IH; [|assumption]. rewrite no_backtick_app, Hcur.
      cbn [no_backtick andb]. now rewrite Hc.
    + constructor; [assumption|]. apply IH; [|assumption].
      cbn [no_backtick]. now rewrite Hc.
Qed.

Lemma Forall_dropwhile {A} (P : A -> Prop) (p : A -> bool) (l : list A) :
  Forall P l -> Forall P (dropwhile p l).
Proof.
  induction 1 as [|x l Hx Hl IH]; cbn; [constructor|].
  destruct (p x); [assumption | now constructor].
Qed.

Lemma no_backtick_concat (l : list string) :
  Forall (fun x => no_backtick x = true) l ->
  no_backtick (String.concat "" l) = true.
Proof.
  induction 1 as [|x l Hx Hl IH]; [reflexivity|].
  destruct l as [|y l]; [assumption|].
  cbn [String.concat]. cbn [String.concat] in IH.
  rewrite no_backtick_app, Hx. cbn [append andb]. exact IH.
Qed.

Lemma no_backtick_strip (s : string) :
  no_backtick s = true -> no_backtick (strip s) = true.
Proof.
  intros H. unfold strip. apply no_backtick_concat.
  apply Forall_rev, Forall_dropwhile, Forall_rev, Forall_dropwhile.
  destruct s as [|c s]; [constructor|].
  cbn [no_backtick] in H. apply andb_true_iff in H as [Hc Hs].
  apply no_backtick_chars_from; [|assumption]. cbn [no_backtick]. now rewrite Hc.
Qed.

(** X2.  A document wrapped in a [json] code fence, with any ASCII white
    space before and after the fence, is handed to [json.loads] exactly as it
    stands between the fences, provided it holds no backtick itself. *)
Theorem fenced_document_is_recovered (ws1 body ws2 : string) :
  all_space ws1 = true ->
  all_space ws2 = true ->
  no_backtick body = true ->
  clean_response_text (ws1 ++ backticks ++ "json" ++ body ++ backticks ++ ws2) = body.
Proof.
  intros H1 H2 Hb. unfold clean_response_text.
  change backticks with "```".
  replace (ws1 ++ "```" ++ "json" ++ body ++ "```" ++ ws2)
    with (ws1 ++ String "`" ((("``json" ++ body) ++ "``") ++ String "`" ws2)).
  2:{ f_equal. cbn [append]. do 6 f_equal. rewrite append_assoc. reflexivity. }
  rewrite (strip_backticked _ _ _ H1 H2).
  replace (String "`" ((("``json" ++ body) ++ "``") ++ "`"))
    with ("```json" ++ (body ++ "```")).
  2:{ cbn [append]. do 6 f_equal. rewrite append_assoc. reflexivity. }
  change ("```" ++ "json") with "```json".
  change (remove_all "```json" ?x) with (remove_from "```json" 0 x).
  rewrite (remove_from_head "`" "``json").
  rewrite (remove_from_no_backtick "``json" body "```" Hb).
  change (remove_from "```json" 0 "```") with "```".
  change (remove_all "```" ?x) with (remove_from "```" 0 x).
  rewrite (remove_from_no_backtick "``" body "```" Hb).
  change (remove_from "```" 0 "```") with "".
  apply append_nil_r.
Qed.

Lemma fenced_document_is_recovered_witness :
  clean_response_text
    (bytes [32; 10] ++ backticks ++ "json" ++ dumps (instruction_doc [] [open_wikipedia])
     ++ backticks ++ bytes [10])
  = dumps (instruction_doc [] [open_wikipedia]).
Proof.
  apply (fenced_document_is_recovered (bytes [32; 10])
           (dumps (instruction_doc [] [open_wikipedia])) (bytes [10]));
    reflexivity.
Defined.

(** X3.  A text without any backtick reaches [json.loads] stripped of the
    white space around it and otherwise untouched. *)
Theorem unfenced_text_is_only_stripped (text : string) :
  no_backtick text = true -> clean_response_text text = strip text.
Proof.
  intros H. apply no_backtick_strip in H. unfold clean_response_text.
  change backticks with "```". change ("```" ++ "json") with "```json".
  change (remove_all "```json" ?x) with (remove_from "```json" 0 x).
  change (remove_all "```" ?x) with (remove_from "```" 0 x).
  rewrite <- (append_nil_r (strip text)) at 1.
  rewrite (remove_from_no_backtick "``json" _ "" H). cbn [remove_from].
  rewrite (remove_from_no_backtick "``" _ "" H). cbn [remove_from].
  now rewrite !append_nil_r.
Qed.

Lemma unfenced_text_is_only_stripped_witness :
  clean_response_text (bytes [10; 32] ++ dumps (JObj [("speech", JStr "Hello!")]) ++ " ")
  = dumps (JObj [("speech", JStr "Hello!")]).
Proof.
  rewrite (unfenced_text_is_only_stripped
             (bytes [10; 32] ++ dumps (JObj [("speech", JStr "Hello!")]) ++ " "));
    reflexivity.
Defined.

(** ** The weather helper *)

(** X4.  An exception that leaves [get_weather] is never one of the two
    classes it catches, a request was made (so a key is configured) and it
    was the only one. *)
Theorem get_weather_escapes w city t e t' :
  get_weather w city t = (Raise e, t') ->
  isinstance_RequestException e = false
  /\ isinstance_KeyError e = false
  /\ (exists key, WEATHER_API_KEY w = Some key /\ key <> "")
  /\ t' = S t.
Proof.
  unfold get_weather, try_except.
  destruct (WEATHER_API_KEY w) as [[|c key]|]; try discriminate.
  run. split_matches; intros [= <- <-]; repeat split; try assumption;
    eexists; (split; [reflexivity | discriminate]).
Qed.

Lemma get_weather_escapes_witness :
  isinstance_RequestException IndexError = false
  /\ isinstance_KeyError IndexError = false
  /\ (exists key, WEATHER_API_KEY (example_world "" None (Ok no_condition)) = Some key
                  /\ key <> "")
  /\ 1%nat = 1%nat.
Proof.
  apply (get_weather_escapes (example_world "" None (Ok no_condition))
           (JStr "paris") 0 IndexError 1).
  reflexivity.
Defined.

(** X5.  With a key configured, [get_weather] makes one request and answers:
    the apology "couldn't fetch" when the request fails with a
    [RequestException]; the apology "couldn't find weather data" when the
    answer is a dictionary without [weather], or with a first weather
    condition but without [main]; and the weather sentence, built from the
    description of the first condition and [main.temp], when these are
    there. *)
Theorem get_weather_sentences w key city t :
  WEATHER_API_KEY w = Some key -> key <> "" ->
  (forall e,
      requests_get_json w t city key = Raise e ->
      isinstance_RequestException e = true ->
      get_weather w city t
      = (Ok ("Sorry, I couldn't fetch the weather for " ++ str w city ++ "."), S t))
  /\ (forall o,
        requests_get_json w t city key = Ok (JObj o) ->
        dict_get o "weather" = None ->
        get_weather w city t
        = (Ok ("Sorry, I couldn't find weather data for " ++ str w city ++ "."), S t))
  /\ (forall o c rest description,
        requests_get_json w t city key = Ok (JObj o) ->
        dict_get o "weather" = Some (JArr (JObj c :: rest)) ->
        dict_get c "description" = Some description ->
        (dict_get o "main" = None ->
         get_weather w city t
         = (Ok ("Sorry, I couldn't find weather data for " ++ str w city ++ "."), S t))
        /\ (forall m temp,
              dict_get o "main" = Some (JObj m) ->
              dict_get m "temp" = Some temp ->
              get_weather w city t
              = (Ok ("The weather in " ++ str w city ++ " is currently "
                     ++ str w description ++ " with a temperature of "
                     ++ str w temp ++ "Â°C."), S t))).
Proof.
  intros Hk Hne.
  assert (E : get_weather w city t
              = try_except
                  (data <- effect (fun t => requests_get_json w t city key) ;;
                   description <- lift (pbind (getitem data "weather") (fun ws =>
                                        pbind (getitem0 ws) (fun w0 =>
                                        getitem w0 "description"))) ;;
                   temp <- lift (pbind (getitem data "main")
                                       (fun m => getitem m "temp")) ;;
                   ret ("The weather in " ++ str w city ++ " is currently "
                        ++ str w description ++ " with a temperature of "
                        ++ str w temp ++ "Â°C."))
                  (fun e =>
                     if isinstance_RequestException e then
                       Some (ret ("Sorry, I couldn't fetch the weather for "
                                  ++ str w city ++ "."))
                     else if isinstance_KeyError e then
                       Some (ret ("Sorry, I couldn't find weather data for "
                                  ++ str w city ++ "."))
                     else None) t).
  { unfold get_weather. rewrite Hk. destruct key; [congruence | reflexivity]. }
  rewrite E. unfold try_except. run.
  split; [|split].
  - intros e He Hr. now rewrite He, Hr.
  - intros o Ho Hw. rewrite Ho. cbn [getitem pbind]. now rewrite Hw.
  - intros o c rest description Ho Hw Hd. rewrite Ho. cbn [getitem pbind].
    rewrite Hw. cbn [getitem0 pbind getitem]. rewrite Hd. split.
    + intros Hm. now rewrite Hm.
    + intros m temp Hm Ht. rewrite Hm. cbn [getitem pbind]. now rewrite Ht.
Qed.

Lemma get_weather_sentences_witness :
  get_weather (example_world "" None (Raise RequestException)) (JStr "paris") 0
  = (Ok "Sorry, I couldn't fetch the weather for paris.", 1%nat)
  /\ get_weather (example_world "" None (Ok (JObj []))) (JStr "paris") 0
     = (Ok "Sorry, I couldn't find weather data for paris.", 1%nat)
  /\ get_weather
       (example_world "" None
          (Ok (JObj [("weather", JArr [JObj [("description", JStr "clear sky")]])])))
       (JStr "paris") 0
     = (Ok "Sorry, I couldn't find weather data for paris.", 1%nat)
  /\ get_weather (example_world "" None (Ok sunny)) (JStr "paris") 0
     = (Ok "The weather in paris is currently clear sky with a temperature of 21Â°C.",
        1%nat).
Proof.
  split; [|split; [|split]].
  - refine (proj1 (get_weather_sentences
                     (example_world "" None (Raise RequestException)) "k"
                     (JStr "paris") 0 eq_refl _) RequestException eq_refl eq_refl).
    discriminate.
  - refine (proj1 (proj2 (get_weather_sentences
                     (example_world "" None (Ok (JObj []))) "k"
                     (JStr "paris") 0 eq_refl _)) [] eq_refl eq_refl).
    discriminate.
  - refine (proj1 (proj2 (proj2 (get_weather_sentences
                     (example_world "" None
                        (Ok (JObj [("weather",
                                    JArr [JObj [("description", JStr "clear sky")]])])))
                     "k" (JStr "paris") 0 eq_refl _))
                     _ _ [] (JStr "clear sky") eq_refl eq_refl eq_refl) eq_refl).
    discriminate.
  - refine (proj2 (proj2 (proj2 (get_weather_sentences
                     (example_world "" None (Ok sunny)) "k"
                     (JStr "paris") 0 eq_refl _))
                     _ _ [] (JStr "clear sky") eq_refl eq_refl eq_refl)
              [("temp", JInt 21)] (JInt 21) eq_refl eq_refl).
    discriminate.
Defined.

(** ** The video helper *)

(** X6.  [get_youtube_video_url] always answers, after at most two calls of
    the service.  A url it returns is an embed url and comes with the
    "Playing the top result" sentence; without a url the sentence is one of
    the five apologies. *)
Theorem youtube_answers w q t :
  exists url speech t',
    get_youtube_video_url w q t = (Ok (url, speech), t')
    /\ (t <= t' <= t + 2)%nat
    /\ match url with
       | Some u =>
           (exists video_id, u = "https://www.youtube.com/embed/" ++ video_id)
           /\ speech = "Playing the top result for '" ++ str w q ++ "' on YouTube."
       | None =>
           speech = "YouTube API is not configured."
           \/ speech = "I couldn't find any YouTube videos for '" ++ str w q ++ "'."
           \/ speech = "Sorry, I found videos for '" ++ str w q
                       ++ "', but none of them can be played here."
           \/ speech = "Sorry, I couldn't find a video for '" ++ str w q
                       ++ "' on YouTube."
       end.
Proof.
  unfold get_youtube_video_url, try_except.
  destruct (youtube w) as [yt|]; run.
  - split_matches; eexists _, _, _; (split; [reflexivity|]);
      (split; [lia|]); eauto 6.
  - eexists _, _, _. split; [reflexivity|]. split; [lia | auto].
Qed.

Lemma video_ids_of_found : forall items names,
  Forall2 found_video items names ->
  video_ids_of items = Ok (map JStr names).
Proof.
  induction 1 as [|item name items names (i & Hi & Hv) _ IH]; [reflexivity|].
  cbn [video_ids_of map]. rewrite Hi. cbn [pbind]. rewrite Hv. cbn [pbind].
  now rewrite IH.
Qed.

Lemma as_strs_map (names : list string) : as_strs (map JStr names) = Ok names.
Proof.
  induction names as [|n names IH]; [reflexivity|].
  cbn [map as_strs]. now rewrite IH.
Qed.

Lemma first_embeddable_first : forall pre item post video_id,
  Forall (fun x => embeddable x = Ok false) pre ->
  embeddable item = Ok true ->
  getitem item "id" = Ok video_id ->
  first_embeddable (pre ++ item :: post)%list = Ok (Some video_id).
Proof.
  unfold embeddable.
  induction pre as [|x pre IH]; intros item post video_id Hpre Hitem Hid;
    cbn [app first_embeddable].
  - destruct (getitem item "status") as [st|]; [|discriminate]. cbn [pbind] in *.
    destruct (getitem st "embeddable") as [e|]; [|discriminate]. cbn [pbind] in *.
    injection Hitem as ->. now rewrite Hid.
  - inversion Hpre as [|? ? Hx Hrest]; subst.
    destruct (getitem x "status") as [st|]; [|discriminate]. cbn [pbind] in *.
    destruct (getitem st "embeddable") as [e|]; [|discriminate]. cbn [pbind] in *.
    injection Hx as ->. now apply IH.
Qed.

Lemma first_embeddable_none : forall items,
  Forall (fun x => embeddable x = Ok false) items ->
  first_embeddable items = Ok None.
Proof.
  unfold embeddable.
  induction 1 as [|x items Hx _ IH]; [reflexivity|]. cbn [first_embeddable].
  destruct (getitem x "status") as [st|]; [|discriminate]. cbn [pbind] in *.
  destruct (getitem st "embeddable") as [e|]; [|discriminate]. cbn [pbind] in *.
  injection Hx as ->. exact IH.
Qed.

(** X7.  When the search finds videos, the helper asks for the details of
    all of them in one call, their ids joined by commas in the order found,
    and plays the first video of the details that is embeddable, whatever
    follows it; when none is embeddable it says so and returns no url. *)
Theorem youtube_plays_first_embeddable w yt q t o found names d details :
  youtube w = Some yt ->
  search_list yt t q = Ok (JObj o) ->
  dict_get o "items" = Some (JArr found) ->
  Forall2 found_video found names ->
  names <> [] ->
  videos_list yt (S t) (String.concat "," names) = Ok (JObj d) ->
  dict_get d "items" = Some (JArr details) ->
  (forall pre item post video_id,
      details = (pre ++ item :: post)%list ->
      Forall (fun x => embeddable x = Ok false) pre ->
      embeddable item = Ok true ->
      getitem item "id" = Ok video_id ->
      get_youtube_video_url w q t
      = (Ok (Some ("https://www.youtube.com/embed/" ++ str w video_id),
             "Playing the top result for '" ++ str w q ++ "' on YouTube."),
         S (S t)))
  /\ (Forall (fun x => embeddable x = Ok false) details ->
      get_youtube_video_url w q t
      = (Ok (None, "Sorry, I found videos for '" ++ str w q
                   ++ "', but none of them can be played here."),
         S (S t))).
Proof.
  intros Hy Hs Ho Hf Hn Hv Hd.
  assert (E : forall r,
             first_embeddable details = Ok r ->
             get_youtube_video_url w q t
             = (Ok match r with
                   | Some video_id =>
                       (Some ("https://www.youtube.com/embed/" ++ str w video_id),
                        "Playing the top result for '" ++ str w q ++ "' on YouTube.")
                   | None =>
                       (None, "Sorry, I found videos for '" ++ str w q
                              ++ "', but none of them can be played here.")
                   end, S (S t))).
  { intros r Hr. unfold get_youtube_video_url, try_except. rewrite Hy. run.
    rewrite Hs. cbn [py_get pbind]. rewrite Ho. cbn [py_iter].
    rewrite (video_ids_of_found _ _ Hf).
    destruct names as [|n names]; [congruence|]. cbn [map].
    change (JStr n :: map JStr names) with (map JStr (n :: names)).
    rewrite as_strs_map. unfold join. rewrite Hv. cbn [py_get pbind].
    rewrite Hd. cbn [py_iter]. rewrite Hr. now destruct r. }
  split.
  - intros pre item post video_id -> Hpre Hitem Hid.
    now rewrite (E _ (first_embeddable_first _ _ _ _ Hpre Hitem Hid)).
  - intros Hall. now rewrite (E _ (first_embeddable_none _ Hall)).
Qed.

Lemma youtube_plays_first_embeddable_witness :
  get_youtube_video_url (example_world "" (Some two_videos) (Ok sunny)) (JStr "lofi") 0
  = (Ok (Some "https://www.youtube.com/embed/b2",
         "Playing the top result for 'lofi' on YouTube."), 2%nat)
  /\ get_youtube_video_url (example_world "" (Some unplayable_videos) (Ok sunny))
       (JStr "lofi") 0
     = (Ok (None, "Sorry, I found videos for 'lofi', but none of them can be "
                  ++ "played here."), 2%nat).
Proof.
  split.
  - refine (proj1 (youtube_plays_first_embeddable
                     (example_world "" (Some two_videos) (Ok sunny)) two_videos
                     (JStr "lofi") 0 _ _ ["a1"; "b2"] _ _
                     eq_refl eq_refl eq_refl _ _ eq_refl eq_refl)
              [video_details "a1" false] (video_details "b2" true)
              [JStr "not an item"] (JStr "b2") eq_refl _ eq_refl eq_refl).
    + repeat constructor; eexists; split; reflexivity.
    + discriminate.
    + repeat constructor.
  - refine (proj2 (youtube_plays_first_embeddable
                     (example_world "" (Some unplayable_videos) (Ok sunny))
                     unplayable_videos
                     (JStr "lofi") 0 _ _ ["a1"; "b2"] _ _
                     eq_refl eq_refl eq_refl _ _ eq_refl eq_refl) _).
    + repeat constructor; eexists; split; reflexivity.
    + discriminate.
    + repeat constructor.
Defined.

(** X8.  When the search answers a dictionary without [items], or with an
    empty list of items, the helper stops there: it says it found no video,
    returns no url and does not ask for any details. *)
Theorem youtube_finds_nothing w yt q t o :
  youtube w = Some yt ->
  search_list yt t q = Ok (JObj o) ->
  dict_get o "items" = None \/ dict_get o "items" = Some (JArr []) ->
  get_youtube_video_url w q t
  = (Ok (None, "I couldn't find any YouTube videos for '" ++ str w q ++ "'."), S t).
Proof.
  intros Hy Hs Ho. unfold get_youtube_video_url, try_except. rewrite Hy. run.
  rewrite Hs. cbn [py_get pbind]. now destruct Ho as [-> | ->].
Qed.

Lemma youtube_finds_nothing_witness :
  get_youtube_video_url (example_world "" (Some nothing_listed) (Ok sunny))
    (JStr "lofi") 0
  = (Ok (None, "I couldn't find any YouTube videos for 'lofi'."), 1%nat).
Proof.
  apply (youtube_finds_nothing (example_world "" (Some nothing_listed) (Ok sunny))
           nothing_listed (JStr "lofi") 0 [("kind", JStr "list")] eq_refl eq_refl).
  left. reflexivity.
Defined.

(** ** The music helper *)

(** X9.  [get_spotify_track_url] always answers, after at most one search.
    A url it returns is a track embed url and comes with a "Playing ... on
    Spotify." sentence; without a url the sentence is one of the three
    apologies. *)
Theorem spotify_answers w q t :
  exists url speech t',
    get_spotify_track_url w q t = (Ok (url, speech), t')
    /\ (t <= t' <= t + 1)%nat
    /\ match url with
       | Some u =>
           (exists track_id, u = "https://open.spotify.com/embed/track/" ++ track_id)
           /\ exists track_name, speech = "Playing '" ++ track_name ++ "' on Spotify."
       | None =>
           speech = "Spotify API is not configured."
           \/ speech = "Sorry, I couldn't find the song '" ++ str w q ++ "' on Spotify."
           \/ speech = "Sorry, I couldn't play '" ++ str w q ++ "' on Spotify."
       end.
Proof.
  unfold get_spotify_track_url, try_except.
  destruct (spotify w) as [sp|]; run.
  - split_matches; eexists _, _, _; (split; [reflexivity|]);
      (split; [lia|]); eauto 6.
  - eexists _, _, _. split; [reflexivity|]. split; [lia | auto].
Qed.

(** X10.  The search is made for [track:] followed by the term.  An answer
    that is empty ([None], an empty dictionary) or lists no track gives the
    "couldn't find the song" apology; otherwise the first track listed is
    played, its [id] in the url and its [name] in the sentence. *)
Theorem spotify_plays_first_track w sp q t :
  spotify w = Some sp ->
  (forall results,
      search sp t ("track:" ++ str w q) = Ok results ->
      truthy results = false ->
      get_spotify_track_url w q t
      = (Ok (None, "Sorry, I couldn't find the song '" ++ str w q ++ "' on Spotify."),
         S t))
  /\ (forall o tracks,
        search sp t ("track:" ++ str w q) = Ok (JObj o) ->
        dict_get o "tracks" = Some (JObj tracks) ->
        (dict_get tracks "items" = Some (JArr []) ->
         get_spotify_track_url w q t
         = (Ok (None, "Sorry, I couldn't find the song '" ++ str w q
                      ++ "' on Spotify."), S t))
        /\ (forall track rest track_id track_name,
              dict_get tracks "items" = Some (JArr (JObj track :: rest)) ->
              dict_get track "id" = Some track_id ->
              dict_get track "name" = Some track_name ->
              get_spotify_track_url w q t
              = (Ok (Some ("https://open.spotify.com/embed/track/" ++ str w track_id),
                     "Playing '" ++ str w track_name ++ "' on Spotify."), S t))).
Proof.
  intros Hs. unfold get_spotify_track_url, try_except. rewrite Hs. run.
  split.
  - intros results Hr Ht. rewrite Hr. unfold no_tracks. now rewrite Ht.
  - intros o tracks Hr Ho.
    assert (Hne : truthy (JObj o) = true) by (destruct o; [discriminate | reflexivity]).
    rewrite Hr. unfold no_tracks. rewrite Hne. cbn [negb getitem pbind].
    rewrite Ho. cbn [getitem pbind]. split.
    + intros Hi. now rewrite Hi.
    + intros track rest track_id track_name Hi Hid Hname. rewrite Hi.
      cbn [truthy negb getitem0 pbind getitem]. now rewrite Hid, Hname.
Qed.

Lemma spotify_plays_first_track_witness :
  get_spotify_track_url (music_world (Ok JNull)) (JStr "stairway") 0
  = (Ok (None, "Sorry, I couldn't find the song 'stairway' on Spotify."), 1%nat)
  /\ get_spotify_track_url
       (music_world (Ok (JObj [("tracks", JObj [("items", JArr [])])])))
       (JStr "stairway") 0
     = (Ok (None, "Sorry, I couldn't find the song 'stairway' on Spotify."), 1%nat)
  /\ get_spotify_track_url (music_world (Ok one_track)) (JStr "stairway") 0
     = (Ok (Some "https://open.spotify.com/embed/track/4u7",
            "Playing 'Stairway to Heaven' on Spotify."), 1%nat).
Proof.
  split; [|split].
  - exact (proj1 (spotify_plays_first_track (music_world (Ok JNull)) _
                    (JStr "stairway") 0 eq_refl) JNull eq_refl eq_refl).
  - exact (proj1 (proj2 (spotify_plays_first_track
                    (music_world (Ok (JObj [("tracks", JObj [("items", JArr [])])]))) _
                    (JStr "stairway") 0 eq_refl)
                    [("tracks", JObj [("items", JArr [])])] [("items", JArr [])]
                    eq_refl eq_refl) eq_refl).
  - exact (proj2 (proj2 (spotify_plays_first_track (music_world (Ok one_track)) _
                    (JStr "stairway") 0 eq_refl)
                    [("tracks",
                      JObj [("items",
                             JArr [JObj [("id", JStr "4u7");
                                         ("name", JStr "Stairway to Heaven")];
                                   JObj [("id", JStr "zzz"); ("name", JStr "Other")]])])]
                    _ eq_refl eq_refl)
             _ _ (JStr "4u7") (JStr "Stairway to Heaven") eq_refl eq_refl eq_refl).
Defined.

(** ** What a request does to the table *)





Lemma insert_conversation_ok uid m b h h' :
  insert_conversation uid m b h = Ok h' ->
  exists um v,
    sqlite_bind m = Ok um
    /\ sqlite_bind b = Ok v
    /\ h' = (h ++ [{| row_user_id := uid; user_message := um;
                      bot_response := v |}])%list.
Proof.
  unfold insert_conversation. destruct (sqlite_bind m) as [um|]; [|discriminate].
  cbn [pbind]. destruct (sqlite_bind b) as [v|]; [|discriminate].
  intros [= <-]. now exists um, v.
Qed.

(** A processing that ends well answered a dictionary with status 200 and
    inserted one row, bound from the message and from the [speech] of that
    dictionary. *)
Lemma process_response_ok w uid m h text t r t' :
  process_response w uid m h text t = (Ok r, t') ->
  exists bo um v,
    fst r = jsonify (JObj bo) 200
    /\ sqlite_bind m = Ok um
    /\ sqlite_bind (speech_or_default bo) = Ok v
    /\ snd r = (h ++ [{| row_user_id := uid; user_message := um;
                         bot_response := v |}])%list.
Proof.
  unfold process_response. run.
  destruct (loads w (clean_response_text text)) as [rj|]; [|discriminate].
  destruct rj as [| | | | | |o]; try discriminate. cbn [py_get].
  destruct (eq_str _ "instruction").
  - destruct (instruction_items (JObj o)) as [instrs|]; [|discriminate].
    destruct (run_loop w instrs empty_acc t) as [[acc|] t1]; [|discriminate].
    assert (Hfr : exists bo, assemble (JObj o) acc = Ok (JObj bo)).
    { unfold assemble. destruct (confirmation_speech acc); cbn; eauto. }
    destruct Hfr as (bo & ->). cbn [py_get].
    destruct (insert_conversation _ _ _ _) as [h'|] eqn:Hi; [|discriminate].
    intros [= <- _]. apply insert_conversation_ok in Hi as (um & v & Hu & Hv & ->).
    exists bo, um, v. cbn. auto.
  - destruct (insert_conversation _ _ _ _) as [h'|] eqn:Hi; [|discriminate].
    intros [= <- _]. apply insert_conversation_ok in Hi as (um & v & Hu & Hv & ->).
    exists o, um, v. cbn [fst snd]. unfold speech_or_default.
    destruct (dict_get o "speech"); [auto | discriminate].
Qed.

(** Reading the message fails as reading the body does, or because the body
    is no dictionary. *)
Lemma message_raises req e :
  message req = Raise e ->
  request_json req = Raise e
  \/ (e = AttributeError /\ exists body, request_json req = Ok body).
Proof.
  unfold message. destruct (request_json req) as [body|e0]; cbn [pbind].
  - destruct body; cbn [py_get]; try discriminate;
      intros [= <-]; right; eauto.
  - intros [= <-]. now left.
Qed.

(** How [chat_api] ends, guard by guard. *)
Lemma chat_api_cases w req h t :
  (logged_in req = false
   /\ chat_api w req h t = (jsonify (JObj [("error", JStr "Unauthorized")]) 401, h))
  \/ (logged_in req = true /\ model w = None
      /\ chat_api w req h t
         = (jsonify (conversation "AI model is not configured.") 500, h))
  \/ (logged_in req = true /\ model w <> None
      /\ exists e, message req = Raise e /\ chat_api w req h t = (unhandled e, h))
  \/ (logged_in req = true /\ model w <> None
      /\ (exists m, message req = Ok m /\ truthy m = false)
      /\ chat_api w req h t
         = (jsonify (JObj [("error", JStr "No message provided")]) 400, h))
  \/ (logged_in req = true /\ model w <> None
      /\ (exists m, message req = Ok m /\ truthy m = true)
      /\ status (fst (chat_api w req h t)) = 500%Z
      /\ snd (chat_api w req h t) = h)
  \/ (logged_in req = true /\ model w <> None
      /\ exists m bo um v,
           message req = Ok m /\ truthy m = true
           /\ chat_api w req h t
              = (jsonify (JObj bo) 200,
                 (h ++ [{| row_user_id := user_id req; user_message := um;
                           bot_response := v |}])%list)
           /\ sqlite_bind m = Ok um
           /\ sqlite_bind (speech_or_default bo) = Ok v).
Proof.
  unfold chat_api.
  destruct (logged_in req); [|left; auto]. right. cbn [negb].
  destruct (model w) as [generate|]; [|left; auto]. right.
  destruct (message req) as [m|e];
    [|left; repeat split; [discriminate | eauto]].
  right.
  destruct (truthy m) eqn:Ht; cbn [negb];
    [|left; repeat split; [discriminate | eauto]].
  right.
  destruct (model_text w generate (user_id req) m h t) as [[text|e] t1].
  - destruct (process_response w (user_id req) m h text t1)
      as [[r|e] t2] eqn:Hp; cbn [fst except_clauses].
    + right. split; [reflexivity|]. split; [discriminate|].
      apply process_response_ok in Hp as (bo & um & v & Hb & Hu & Hv & Hh).
      exists m, bo, um, v. repeat split; try assumption.
      destruct r as [resp h']. cbn [fst snd] in *. now subst.
    + left. split; [reflexivity|]. split; [discriminate|]. split; [eauto|].
      now destruct (isinstance_JSONDecodeError e).
  - left. split; [reflexivity|]. split; [discriminate|]. split; [eauto|].
    unfold except_clauses_unbound. now destruct (isinstance_JSONDecodeError e).
Qed.

Lemma status_unhandled e :
  status (unhandled e) <> 200%Z /\ status (unhandled e) <> 401%Z.
Proof. destruct e; split; discriminate. Qed.

(** The two ways a request can end, as far as the table goes. *)
Lemma chat_outcome w req h t :
  (status (fst (chat_api w req h t)) <> 200%Z /\ snd (chat_api w req h t) = h)
  \/ (exists m bo um v,
        message req = Ok m
        /\ logged_in req = true
        /\ chat_api w req h t
           = (jsonify (JObj bo) 200,
              (h ++ [{| row_user_id := user_id req; user_message := um;
                        bot_response := v |}])%list)
        /\ sqlite_bind m = Ok um
        /\ sqlite_bind (speech_or_default bo) = Ok v).
Proof.
  destruct (chat_api_cases w req h t)
    as [(_ & E) | [(_ & _ & E) | [(_ & _ & e & _ & E) | [(_ & _ & _ & E) |
        [(_ & _ & _ & E & E') |
         (Hl & _ & m & bo & um & v & Hq & _ & E & Hu & Hv)]]]]];
    try (left; rewrite E; split; [discriminate | reflexivity]).
  - left. rewrite E. split; [apply status_unhandled | reflexivity].
  - left. rewrite E. split; [discriminate | assumption].
  - right. eauto 10.
Qed.


(** X13.  The status tells the guards apart.  It is 401 exactly when the
    session is not logged in.  Past that guard and with a model configured,
    it is 415 exactly when reading the body of the request raises
    [UnsupportedMediaType] (the body was not sent as JSON), and 400 exactly
    when reading it raises [BadRequest] (it is not valid JSON) or when the
    message it holds is missing or falsy.  Otherwise the status is 200 or
    500. *)
Theorem chat_status_codes w req h t :
  (status (fst (chat_api w req h t)) = 401%Z <-> logged_in req = false)
  /\ (status (fst (chat_api w req h t)) = 415%Z
      <-> logged_in req = true /\ model w <> None
          /\ request_json req = Raise UnsupportedMediaType)
  /\ (status (fst (chat_api w req h t)) = 400%Z
      <-> logged_in req = true /\ model w <> None
          /\ (request_json req = Raise BadRequest
              \/ exists body,
                   request_json req = Ok (JObj body)
                   /\ truthy (match dict_get body "message" with
                              | Some m => m
                              | None => JNull
                              end) = false))
  /\ In (status (fst (chat_api w req h t))) [200; 400; 401; 415; 500]%Z.
Proof.
  assert (Hmsg : forall body,
             request_json req = Ok (JObj body) ->
             message req = Ok (match dict_get body "message" with
                               | Some m => m
                               | None => JNull
                               end))
    by (intros body Hb; unfold message; now rewrite Hb).
  assert (Hraise : forall e, request_json req = Raise e -> message req = Raise e)
    by (intros e He; unfold message; now rewrite He).
  destruct (chat_api_cases w req h t)
    as [(Hl & E) | [(Hl & Hm & E) | [(Hl & Hm & e & He & E) | [(Hl & Hm & Hq & E) |
        [(Hl & Hm & Hq & E & _) |
         (Hl & Hm & m & bo & um & v & Hq & Hne & E & _)]]]]];
    rewrite ?E; cbn [fst status].
  - split; [tauto|]. split; [|split; [|cbn; tauto]].
    + split; [discriminate | intros (H & _); congruence].
    + split; [discriminate | intros (H & _); congruence].
  - split; [split; [discriminate | congruence]|].
    split; [|split; [|cbn; tauto]].
    + split; [discriminate | intros (_ & H & _); congruence].
    + split; [discriminate | intros (_ & H & _); congruence].
  - split; [split; [intros H; now apply status_unhandled in H | congruence]|].
    apply message_raises in He as He'.
    split; [|split].
    + split.
      * intros H. repeat split; try assumption.
        destruct He' as [He' | (-> & _)]; [|discriminate].
        destruct e; try discriminate. exact He'.
      * intros (_ & _ & H). apply Hraise in H. rewrite H in He.
        now injection He as <-.
    + split.
      * intros H. repeat split; try assumption. left.
        destruct He' as [He' | (-> & _)]; [|discriminate].
        destruct e; try discriminate. exact He'.
      * intros (_ & _ & [H | (body & Hb & _)]).
        -- apply Hraise in H. rewrite H in He. now injection He as <-.
        -- apply Hmsg in Hb. congruence.
    + destruct e; cbn; tauto.
  - split; [split; [discriminate | congruence]|].
    split; [|split; [|cbn; tauto]].
    + split; [discriminate|]. intros (_ & _ & H). apply Hraise in H.
      destruct Hq as (m & Hq & _). congruence.
    + split; [|reflexivity]. intros _. repeat split; try assumption.
      destruct Hq as (m & Hq & Ht). right.
      unfold message in Hq. destruct (request_json req) as [body|]; [|discriminate].
      cbn [pbind] in Hq. destruct body; try discriminate.
      cbn [py_get] in Hq. injection Hq as <-. eauto.
  - split; [split; [congruence | congruence]|].
    split; [|split; [|cbn; tauto]].
    + split; [congruence|]. intros (_ & _ & H). apply Hraise in H.
      destruct Hq as (m & Hq & _). congruence.
    + split; [congruence|]. intros (_ & _ & [H | (body & Hb & Ht)]).
      * apply Hraise in H. destruct Hq as (m & Hq & _). congruence.
      * apply Hmsg in Hb. destruct Hq as (m & Hq & Ht'). congruence.
  - split; [split; [discriminate | congruence]|].
    split; [|split; [|cbn; tauto]].
    + split; [discriminate|]. intros (_ & _ & H). apply Hraise in H. congruence.
    + split; [discriminate|]. intros (_ & _ & [H | (body & Hb & Ht)]).
      * apply Hraise in H. congruence.
      * apply Hmsg in Hb. congruence.
Qed.

(** ** The history routes *)

Lemma select_conversations_app u (h1 h2 : History) :
  select_conversations u (h1 ++ h2)%list
  = (select_conversations u h1 ++ select_conversations u h2)%list.
Proof. apply filter_app. Qed.

(** X14.  A turn answered 200 shows in the history of the same session as
    one more entry at the end, made of the message posted and of the speech
    answered ("Executing instruction." when the answer has none), each as
    the table stores it: a text as it is; the entries that were there are
    unchanged. *)
Theorem chat_turn_shows_in_history real_text w s u body h t :
  s_user_id s = Some u ->
  status (fst (chat_api w (request_of s body) h t)) = 200%Z ->
  exists m bo um v,
    message (request_of s body) = Ok m
    /\ fst (chat_api w (request_of s body) h t) = jsonify (JObj bo) 200
    /\ sqlite_bind m = Ok um
    /\ sqlite_bind (speech_or_default bo) = Ok v
    /\ (forall q, m = JStr q -> column_text real_text um = q)
    /\ (forall speech, speech_or_default bo = JStr speech ->
                       column_text real_text v = speech)
    /\ get_history real_text s (snd (chat_api w (request_of s body) h t))
       = jsonify
           (JArr (map (history_entry real_text) (session_rows s h)
                  ++ [JObj [("user", JStr (column_text real_text um));
                            ("bot", JStr (column_text real_text v))]])%list) 200.
Proof.
  intros Hu H200.
  destruct (chat_outcome w (request_of s body) h t)
    as [[Hn _] | (m & bo & um & v & Hq & Hl & E & Hum & Hv)]; [congruence|].
  exists m, bo, um, v. rewrite E. cbn [fst snd].
  assert (Htext : forall x s0 sv, sqlite_bind x = Ok sv -> x = JStr s0 ->
                                  column_text real_text sv = s0).
  { intros x s0 sv Hb ->. cbn [sqlite_bind] in Hb.
    destruct (has_surrogate s0); [discriminate|]. now injection Hb as <-. }
  repeat split; try assumption.
  - intros q Hm. exact (Htext _ _ _ Hum Hm).
  - intros speech Hs. exact (Htext _ _ _ Hv Hs).
  - cbn [request_of logged_in] in Hl.
    unfold get_history, session_rows. rewrite Hl, Hu. cbn [negb].
    rewrite select_conversations_app, map_app. do 2 f_equal.
    unfold request_of. cbn [user_id]. rewrite Hu.
    unfold select_conversations. cbn [filter row_user_id].
    now rewrite Z.eqb_refl.
Qed.

Lemma chat_turn_shows_in_history_witness :
  get_history example_real_text ann_session
    (snd (chat_api
            (example_world
               (fenced (instruction_doc [] [cmd "get_time" (JStr "current")]))
               None (Ok sunny))
            (request_of ann_session (Ok (JObj [("message", JStr "what time is it")])))
            example_history 0))
  = jsonify
      (JArr [JObj [("user", JStr "hi"); ("bot", JStr "Hello!")];
             JObj [("user", JStr "count"); ("bot", JStr "3")];
             JObj [("user", JStr "what time is it");
                   ("bot", JStr "The current time is 02:05 PM.")]]) 200.
Proof.
  destruct (chat_turn_shows_in_history example_real_text
              (example_world
                 (fenced (instruction_doc [] [cmd "get_time" (JStr "current")]))
                 None (Ok sunny))
              ann_session 1%Z (Ok (JObj [("message", JStr "what time is it")]))
              example_history 0
              eq_refl eq_refl) as (m & bo & um & v & Hq & Hb & Hum & Hv & _ & _ & E).
  rewrite E. vm_compute in Hq. injection Hq as <-.
  vm_compute in Hb. injection Hb as <-.
  vm_compute in Hum. injection Hum as <-.
  vm_compute in Hv. injection Hv as <-.
  reflexivity.
Defined.

(** X15.  A request of one user never changes what the history route shows
    to another. *)
Theorem chat_leaves_other_histories real_text w req h t s u :
  s_user_id s = Some u ->
  u <> user_id req ->
  get_history real_text s (snd (chat_api w req h t)) = get_history real_text s h.
Proof.
  intros Hu Hne.
  destruct (chat_outcome w req h t)
    as [[_ ->] | (m & bo & um & v & _ & _ & -> & _)]; [reflexivity|].
  cbn [snd]. unfold get_history, session_rows. rewrite Hu.
  rewrite select_conversations_app. unfold select_conversations at 2.
  cbn [filter row_user_id].
  destruct (Z.eqb_spec (user_id req) u); [congruence|].
  now rewrite app_nil_r.
Qed.

Lemma chat_leaves_other_histories_witness :
  get_history example_real_text bob_session
    (snd (chat_api
            (example_world
               (fenced (instruction_doc [] [cmd "get_time" (JStr "current")]))
               None (Ok sunny))
            (request_of ann_session (Ok (JObj [("message", JStr "what time is it")])))
            example_history 0))
  = jsonify
      (JArr [JObj [("user", JStr "time?");
                   ("bot", JStr "The current time is 02:05 PM.")]]) 200.
Proof.
  rewrite (chat_leaves_other_histories example_real_text _
             (request_of ann_session (Ok (JObj [("message", JStr "what time is it")])))
             example_history 0
             bob_session 2%Z eq_refl); [reflexivity | discriminate].
Defined.

(** X16.  After [clear_history] the history of the session is empty and the
    history of every other user is what it was; clearing again changes
    nothing; and a session that is not logged in clears nothing. *)
Theorem clear_history_clears_own_rows real_text s h :
  (forall u,
      s_logged_in s = true -> s_user_id s = Some u ->
      get_history real_text s (snd (clear_history s h)) = jsonify (JArr []) 200
      /\ snd (clear_history s (snd (clear_history s h))) = snd (clear_history s h)
      /\ forall s' u',
           s_user_id s' = Some u' -> u' <> u ->
           get_history real_text s' (snd (clear_history s h))
           = get_history real_text s' h)
  /\ (s_logged_in s = false ->
      clear_history s h = (jsonify (JObj [("error", JStr "Unauthorized")]) 401, h)).
Proof.
  split.
  - intros u Hl Hu.
    assert (Hfilter : forall u', u' <> u ->
              select_conversations u'
                (filter (fun r => negb (Z.eqb (row_user_id r) u)) h)
              = select_conversations u' h).
    { intros u' Hne. unfold select_conversations.
      induction h as [|r h IH]; [reflexivity|]. cbn [filter].
      destruct (Z.eqb_spec (row_user_id r) u) as [Hr|Hr]; cbn [negb filter].
      - destruct (Z.eqb_spec (row_user_id r) u'); [congruence | exact IH].
      - destruct (Z.eqb (row_user_id r) u'); now rewrite IH. }
    unfold clear_history, delete_conversations. rewrite Hl, Hu.
    cbn [negb snd]. split; [|split].
    + unfold get_history, session_rows. rewrite Hl, Hu. cbn [negb].
      do 2 f_equal. unfold select_conversations. clear Hfilter.
      induction h as [|r h IH]; [reflexivity|]. cbn [filter].
      destruct (Z.eqb (row_user_id r) u) eqn:Er; cbn [filter negb];
        [exact IH | now rewrite Er].
    + clear Hfilter. induction h as [|r h IH]; [reflexivity|]. cbn [filter].
      destruct (negb (Z.eqb (row_user_id r) u)) eqn:Er; cbn [filter];
        [now rewrite Er, IH | exact IH].
    + intros s' u' Hu' Hne. unfold get_history, session_rows. rewrite Hu'.
      destruct (s_logged_in s'); cbn [negb]; [|reflexivity].
      now rewrite (Hfilter _ Hne).
  - intros Hl. unfold clear_history. now rewrite Hl.
Qed.

Lemma clear_history_clears_own_rows_witness :
  get_history example_real_text ann_session
    (snd (clear_history ann_session example_history))
  = jsonify (JArr []) 200
  /\ get_history example_real_text bob_session
       (snd (clear_history ann_session example_history))
     = get_history example_real_text bob_session example_history
  /\ clear_history empty_session example_history
     = (jsonify (JObj [("error", JStr "Unauthorized")]) 401, example_history).
Proof.
  pose proof (proj1 (clear_history_clears_own_rows example_real_text ann_session
                       example_history) 1%Z eq_refl eq_refl) as (Hown & _ & Hother).
  split; [exact Hown|].
  split; [apply (Hother bob_session 2%Z eq_refl); discriminate|].
  exact (proj2 (clear_history_clears_own_rows example_real_text empty_session
                  example_history) eq_refl).
Defined.

(** ** Accounts and sessions *)

Lemma find_user_none name users :
  find_user name users = None <-> ~ In name (map username users).
Proof.
  unfold find_user. induction users as [|u users IH]; cbn [find map In].
  - tauto.
  - destruct (String.eqb_spec (username u) name) as [E|E].
    + split; [discriminate | tauto].
    + rewrite IH. tauto.
Qed.

Lemma find_user_some name users user :
  find_user name users = Some user -> In user users /\ username user = name.
Proof.
  unfold find_user. intros H. apply find_some in H as [Hin Heq].
  now apply String.eqb_eq in Heq.
Qed.

Lemma find_user_new name users user :
  find_user name users = None -> username user = name ->
  find_user name (users ++ [user])%list = Some user.
Proof.
  unfold find_user. intros Hn Hu.
  induction users as [|u users IH]; cbn [find app] in *.
  - subst name. now rewrite String.eqb_refl.
  - destruct (String.eqb (username u) name); [discriminate | now apply IH].
Qed.

Lemma rowid_below_next users user :
  In user users -> (rowid user < next_rowid users)%Z.
Proof.
  unfold next_rowid. induction users as [|u users IH]; cbn [In fold_right].
  - tauto.
  - intros [<- | H]; [lia|]. specialize (IH H). lia.
Qed.

Lemma NoDup_snoc {A} (l : list A) (x : A) :
  NoDup l -> ~ In x l -> NoDup (l ++ [x])%list.
Proof.
  intros Hl Hx. apply NoDup_app; [assumption | repeat constructor; auto |].
  intros a Ha [<- | []]. contradiction.
Qed.

(** X17.  [signup] keeps the accounts apart: if usernames and ids were
    unique they still are, whatever was posted; the accounts that were there
    are untouched and at most one is added; and posting a username that is
    taken adds nothing and says so. *)
Theorem signup_keeps_accounts_unique hash t m f s users :
  NoDup (map username users) ->
  NoDup (map rowid users) ->
  NoDup (map username (users_after (signup hash t m f s users)))
  /\ NoDup (map rowid (users_after (signup hash t m f s users)))
  /\ (exists added,
        users_after (signup hash t m f s users) = (users ++ added)%list
        /\ (length added <= 1)%nat)
  /\ (forall name pass,
        m = POST -> f = post name pass -> In name (map username users) ->
        signup hash t m f s users
        = {| page := render_template "signup.html";
             flashed := ["Username already exists."];
             session_after := s; users_after := users |}).
Proof.
  intros Hn Hi.
  assert (Hsame : forall o, users_after o = users ->
            NoDup (map username (users_after o))
            /\ NoDup (map rowid (users_after o))
            /\ exists added, users_after o = (users ++ added)%list
                             /\ (length added <= 1)%nat).
  { intros o ->. repeat split; try assumption. exists []. rewrite app_nil_r.
    split; [reflexivity | cbn; lia]. }
  assert (H3 : NoDup (map username (users_after (signup hash t m f s users)))
               /\ NoDup (map rowid (users_after (signup hash t m f s users)))
               /\ exists added,
                    users_after (signup hash t m f s users) = (users ++ added)%list
                    /\ (length added <= 1)%nat).
  { unfold signup. destruct m; [now apply Hsame|].
    destruct (form_username f) as [name|]; [|now apply Hsame].
    destruct (form_password f) as [pass|]; [|now apply Hsame].
    destruct (find_user name users) eqn:Hf; [now apply Hsame|].
    cbn [users_after]. rewrite !map_app. cbn [map username rowid].
    split; [|split].
    - apply NoDup_snoc; [assumption|]. now apply find_user_none.
    - apply NoDup_snoc; [assumption|]. intros Hin.
      apply in_map_iff in Hin as (u & Hu & Hin).
      apply rowid_below_next in Hin. lia.
    - eexists. split; [reflexivity | cbn; lia]. }
  destruct H3 as (H1 & H2 & H3). repeat split; try assumption.
  intros name pass -> -> Hin. unfold signup, post.
  cbn [form_username form_password].
  destruct (find_user name users) eqn:Hf; [reflexivity|].
  apply find_user_none in Hf. contradiction.
Qed.

Lemma signup_keeps_accounts_unique_witness :
  map username
    (users_after
       (signup example_hash 7 POST (post "bob" "pw2") empty_session
          (users_after (signup example_hash 3 POST (post "ann" "pw1") empty_session []))))
  = ["ann"; "bob"]
  /\ signup example_hash 9 POST (post "ann" "other") empty_session
       [{| rowid := 1; username := "ann"; password := "3$pw1" |}]
     = {| page := render_template "signup.html";
          flashed := ["Username already exists."];
          session_after := empty_session;
          users_after := [{| rowid := 1; username := "ann"; password := "3$pw1" |}] |}.
Proof.
  split; [reflexivity|].
  refine (proj2 (proj2 (proj2
            (signup_keeps_accounts_unique example_hash 9 POST (post "ann" "other")
               empty_session [{| rowid := 1; username := "ann"; password := "3$pw1" |}]
               _ _))) "ann" "other" eq_refl eq_refl _).
  - repeat constructor; cbn; tauto.
  - repeat constructor; cbn; tauto.
  - cbn. tauto.
Defined.

(** X18.  An account that was just created can log in: provided the hash
    library accepts the password against the hash it made of it, [signup]
    with a free username redirects to the login page, and [login] with the
    same username and password then redirects to the chat and stores the new
    account, with the id the table gave it, in the session. *)
Theorem signup_then_login hash t name pass s s' users :
  check_password_hash hash (generate_password_hash hash t pass) pass = true ->
  find_user name users = None ->
  page (signup hash t POST (post name pass) s users) = redirect "login"
  /\ session_after (signup hash t POST (post name pass) s users) = s
  /\ login hash POST (post name pass) s'
       (users_after (signup hash t POST (post name pass) s users))
     = {| page := redirect "chatbot"; flashed := [];
          session_after :=
            {| s_logged_in := true; s_username := Some name;
               s_user_id := Some (next_rowid users) |};
          users_after :=
            (users ++ [{| rowid := next_rowid users; username := name;
                          password := generate_password_hash hash t pass |}])%list |}.
Proof.
  intros Hc Hf. unfold signup, post. cbn [form_username form_password].
  rewrite Hf. cbn [page session_after users_after]. repeat split.
  unfold login. cbn [form_username form_password].
  rewrite (find_user_new name users
             {| rowid := next_rowid users; username := name;
                password := generate_password_hash hash t pass |} Hf eq_refl).
  cbn [password username rowid].
  now rewrite Hc.
Qed.

Lemma signup_then_login_witness :
  login example_hash POST (post "ann" "pw1") empty_session
    (users_after (signup example_hash 3 POST (post "ann" "pw1") empty_session []))
  = {| page := redirect "chatbot"; flashed := [];
       session_after := ann_session;
       users_after := [{| rowid := 1; username := "ann"; password := "3$pw1" |}] |}.
Proof.
  exact (proj2 (proj2 (signup_then_login example_hash 3 "ann" "pw1" empty_session
                         empty_session [] eq_refl eq_refl))).
Defined.

(** When [login] redirects to the chat, an account stands behind it. *)
Lemma login_opens hash m f s users :
  page (login hash m f s users) = redirect "chatbot" ->
  exists user,
    In user users /\ form_username f = Some (username user)
    /\ session_after (login hash m f s users) = session_of user.
Proof.
  unfold login. destruct m; [discriminate|].
  destruct f as [[name|] [pass|]]; cbn [form_username form_password];
    try discriminate.
  destruct (find_user name users) as [user|] eqn:Hf; [|discriminate].
  destruct (check_password_hash hash (password user) pass); [|discriminate].
  apply find_user_some in Hf as [Hin <-]. intros _. now exists user.
Qed.

(** X19.  [login] never touches the accounts.  It opens a session only for
    a posted username that is in the table and a password the hash library
    accepts against that account's hash, and the session then carries that
    account's name and id; in every other case (a GET, a missing field, an
    unknown name, a wrong password) the session is left as it was. *)
Theorem login_is_sound hash m f s users :
  users_after (login hash m f s users) = users
  /\ (page (login hash m f s users) = redirect "chatbot" ->
      exists name pass user,
        m = POST /\ f = post name pass
        /\ In user users /\ username user = name
        /\ check_password_hash hash (password user) pass = true
        /\ session_after (login hash m f s users) = session_of user)
  /\ (page (login hash m f s users) <> redirect "chatbot" ->
      session_after (login hash m f s users) = s).
Proof.
  unfold login. destruct m; [repeat split; cbn; congruence|].
  destruct f as [[name|] [pass|]]; cbn [form_username form_password];
    try (repeat split; cbn; congruence).
  destruct (find_user name users) as [user|] eqn:Hf;
    [|repeat split; cbn; congruence].
  destruct (check_password_hash hash (password user) pass) eqn:Hc;
    [|repeat split; cbn; congruence].
  apply find_user_some in Hf as [Hin Hu].
  repeat split; cbn [page session_after users_after]; [|congruence].
  intros _. exists name, pass, user. repeat split; assumption.
Qed.

Lemma login_is_sound_witness :
  session_after
    (login example_hash POST (post "ann" "pw1") empty_session
       [{| rowid := 1; username := "ann"; password := "3$pw1" |}])
  = ann_session
  /\ session_after
       (login example_hash POST (post "ann" "wrong") bob_session
          [{| rowid := 1; username := "ann"; password := "3$pw1" |}])
     = bob_session.
Proof.
  split.
  - destruct (proj1 (proj2 (login_is_sound example_hash POST (post "ann" "pw1")
                              empty_session
                              [{| rowid := 1; username := "ann";
                                  password := "3$pw1" |}])) eq_refl)
      as (name & pass & user & _ & _ & _ & _ & _ & E).
    reflexivity.
  - apply (proj2 (proj2 (login_is_sound example_hash POST (post "ann" "wrong")
                           bob_session
                           [{| rowid := 1; username := "ann";
                               password := "3$pw1" |}]))).
    discriminate.
Defined.

(** X20.  Rows are written in the name of the account that logged in: when
    [login] has opened a session, any chat request made with that session
    and answered 200 appends a row whose [user_id] is the id of an account
    of the table, the one whose username was posted at login. *)
Theorem rows_belong_to_the_account hash m f s users w body h t :
  page (login hash m f s users) = redirect "chatbot" ->
  status (fst (chat_api w (request_of (session_after (login hash m f s users)) body)
                 h t)) = 200%Z ->
  exists user q um v,
    In user users
    /\ form_username f = Some (username user)
    /\ message (request_of (session_after (login hash m f s users)) body) = Ok q
    /\ sqlite_bind q = Ok um
    /\ snd (chat_api w (request_of (session_after (login hash m f s users)) body) h t)
       = (h ++ [{| row_user_id := rowid user; user_message := um;
                   bot_response := v |}])%list.
Proof.
  intros Hp H200.
  destruct (login_opens hash m f s users Hp) as (user & Hin & Hu & Hs).
  rewrite Hs in *.
  destruct (chat_outcome w (request_of (session_of user) body) h t)
    as [[Hn _] | (q & bo & um & v & Hq & _ & E & Hum & _)]; [congruence|].
  exists user, q, um, v. rewrite E. cbn [snd]. repeat split; assumption.
Qed.

Lemma rows_belong_to_the_account_witness :
  snd (chat_api
         (example_world
            (fenced (instruction_doc [] [cmd "get_time" (JStr "current")]))
            None (Ok sunny))
         (request_of
            (session_after
               (login example_hash POST (post "ann" "pw1") empty_session
                  [{| rowid := 1; username := "ann"; password := "3$pw1" |}]))
            (Ok (JObj [("message", JStr "hello")])))
         [] 0)
  = [{| row_user_id := 1; user_message := SqlText "hello";
        bot_response := SqlText "The current time is 02:05 PM." |}].
Proof.
  destruct (rows_belong_to_the_account example_hash POST (post "ann" "pw1")
              empty_session [{| rowid := 1; username := "ann"; password := "3$pw1" |}]
              (example_world
                 (fenced (instruction_doc [] [cmd "get_time" (JStr "current")]))
                 None (Ok sunny))
              (Ok (JObj [("message", JStr "hello")])) [] 0 eq_refl eq_refl)
    as (user & q & um & v & _ & _ & _ & _ & E).
  reflexivity.
Defined.

(** After [logout] nothing of the user is reachable: the chat page
    redirects to the login page, and the three API routes answer 401 without
    calling the model, reading or writing a row. *)
Theorem logout_closes_the_session s :
  fst (logout s) = redirect "login"
  /\ chatbot (snd (logout s)) = redirect "login"
  /\ (forall w msg h t,
        chat_api w (request_of (snd (logout s)) msg) h t
        = (jsonify (JObj [("error", JStr "Unauthorized")]) 401, h))
  /\ (forall real_text h,
        get_history real_text (snd (logout s)) h
        = jsonify (JObj [("error", JStr "Unauthorized")]) 401)
  /\ (forall h,
        clear_history (snd (logout s)) h
        = (jsonify (JObj [("error", JStr "Unauthorized")]) 401, h)).
Proof. repeat split. Qed.

(** ** More on the loop and on the shapes the model may answer *)

Lemma get_weather_calls w city t r t' :
  get_weather w city t = (r, t') -> (t <= t' <= S t)%nat.
Proof.
  unfold get_weather, try_except.
  destruct (WEATHER_API_KEY w) as [[|c key]|]; run;
    split_matches; intros [= _ <-]; lia.
Qed.

Lemma get_youtube_video_url_calls w q t r t' :
  get_youtube_video_url w q t = (r, t') -> (t <= t' <= t + 2)%nat.
Proof.
  unfold get_youtube_video_url, try_except.
  destruct (youtube w) as [yt|]; run; split_matches; intros [= _ <-]; lia.
Qed.

Lemma get_spotify_track_url_calls w q t r t' :
  get_spotify_track_url w q t = (r, t') -> (t <= t' <= t + 1)%nat.
Proof.
  unfold get_spotify_track_url, try_except.
  destruct (spotify w) as [sp|]; run; split_matches; intros [= _ <-]; lia.
Qed.

Lemma loop_body_calls w instr acc t r t' :
  loop_body w instr acc t = (r, t') -> (t <= t' <= t + 2)%nat.
Proof.
  unfold loop_body. run.
  destruct (first_key instr) as [command|]; [|intros [= _ <-]; lia].
  destruct (getitem instr command) as [value|]; [|intros [= _ <-]; lia].
  repeat match goal with
         | |- context [if ?b then _ else _] => destruct b
         end;
    try (intros [= _ <-]; lia).
  - destruct (get_weather w value t) as [[s|e] t1] eqn:E;
      apply get_weather_calls in E; intros [= _ <-]; lia.
  - destruct (get_youtube_video_url w value t) as [[[url speech]|e] t1] eqn:E;
      apply get_youtube_video_url_calls in E; intros [= _ <-]; lia.
  - destruct (get_spotify_track_url w value t) as [[[url speech]|e] t1] eqn:E;
      apply get_spotify_track_url_calls in E; intros [= _ <-]; lia.
Qed.

(** X21.  The loop reaches outside (the clock, a service) at most twice per
    command, whether it ends well or raises. *)
Theorem dispatch_calls_are_bounded w : forall instrs acc t,
  (t <= snd (run_loop w instrs acc t) <= t + 2 * length instrs)%nat.
Proof.
  induction instrs as [|instr rest IH]; intros acc t; cbn [run_loop length].
  - cbn. lia.
  - unfold bind. destruct (loop_body w instr acc t) as [[a|e] t1] eqn:E;
      apply loop_body_calls in E.
    + specialize (IH a t1). lia.
    + cbn [snd]. lia.
Qed.

(** X22.  Of a command run on the server only the first key and its value
    count: whatever else the dictionary carries changes nothing to what the
    command does. *)
Theorem only_the_first_key_counts w k v rest acc t :
  is_server_side k = true ->
  loop_body w (JObj ((k, v) :: rest)) acc t = loop_body w (JObj [(k, v)]) acc t.
Proof.
  intros Hk. unfold loop_body. run. cbn [first_key getitem].
  rewrite !dict_get_head.
  repeat match goal with
         | |- context [if String.eqb k ?c then _ else _] =>
             destruct (String.eqb k c) eqn:?
         end; try reflexivity.
  unfold is_server_side, server_side in Hk. cbn [existsb] in Hk.
  rewrite Heqb, Heqb0, Heqb1, Heqb2, Heqb3 in Hk. discriminate.
Qed.

Lemma only_the_first_key_counts_witness :
  loop_body (example_world "" None (Ok sunny))
    (JObj [("get_weather", JStr "paris"); ("open_website", JStr "wikipedia")])
    empty_acc 0
  = (Ok {| final_instructions := [];
           confirmation_speech :=
             ["The weather in paris is currently clear sky with a temperature of 21Â°C."]
        |}, 1%nat).
Proof.
  rewrite (only_the_first_key_counts (example_world "" None (Ok sunny))
             "get_weather" (JStr "paris") [("open_website", JStr "wikipedia")]
             empty_acc 0 eq_refl).
  reflexivity.
Defined.

(** X23.  Valid JSON that is not an object (a list, a text, a number,
    [null]) is not an answer the handler can read: the caller gets the
    generic apology with status 500 and nothing is written. *)
Theorem non_object_answers_fail w req h t q text v :
  model_replies w req h t q text ->
  loads w (clean_response_text text) = Ok v ->
  (forall o, v <> JObj o) ->
  chat_api w req h t = (jsonify (conversation unexpected_error) 500, h).
Proof.
  intros Hm Hl Hv. rewrite (chat_api_replies _ _ _ _ _ _ Hm).
  unfold process_response. run. rewrite Hl.
  destruct v; try reflexivity. now destruct (Hv o).
Qed.

Lemma non_object_answers_fail_witness :
  chat_api (world_decoding (JArr [JObj [("action", JStr "conversation")]]))
    example_request example_history 0
  = (jsonify (conversation unexpected_error) 500, example_history).
Proof.
  apply (non_object_answers_fail
           (world_decoding (JArr [JObj [("action", JStr "conversation")]]))
           example_request example_history 0 "hello" ""
           (JArr [JObj [("action", JStr "conversation")]])).
  - repeat split; try discriminate. eexists. split; reflexivity.
  - reflexivity.
  - discriminate.
Defined.


